(** * cod-app: the proxy signature check, the credential store and the order relay

    A shallow embedding of the Express handlers of the COD application
    ([server.js] and its deployment variants) together with the properties
    its specification states about them.

    Conventions.
    - A JavaScript string is represented by the sequence of its UTF-8 bytes,
      as a [string].  [Buffer.from(s, "utf-8")] and [hmac.update(s)] then read
      the bytes off the string; [Array.prototype.sort] compares the UTF-16
      code units, which [JS.code_units] reads off the bytes.
    - 32-bit words are integers in [Z] with the wrap-around written out.
    - Exceptions are explicit: a computation returns [Ok v] or [Throw e].
    - The database and the downstream commerce API are external; a handler
      takes them as a [world] and returns its response together with the
      trace of the external calls it made. *)

From Stdlib Require Import ZArith String Ascii List Bool Lia DecimalString.
From Stdlib Require Import Sorting.Permutation Sorting.Sorted.
From Stdlib Require DecimalPos.
From stdpp Require Import base option gmap strings sorting.

Open Scope Z_scope.
Set Warnings "-register-all".

(* ===================================================================== *)
(** ** Bytes and strings *)
(* ===================================================================== *)

Module Bytes.

(** A byte is an integer in [0, 256). *)
Definition byte_of_ascii (c : ascii) : Z := Z.of_N (N_of_ascii c).

Definition of_string (s : string) : list Z :=
  List.map byte_of_ascii (list_ascii_of_string s).

(** Lowercase hexadecimal rendering, two digits per byte:
    [digest("hex")]. *)
Definition hex_digit (n : Z) : ascii :=
  match n with
  | 0 => "0" | 1 => "1" | 2 => "2" | 3 => "3" | 4 => "4"
  | 5 => "5" | 6 => "6" | 7 => "7" | 8 => "8" | 9 => "9"
  | 10 => "a" | 11 => "b" | 12 => "c" | 13 => "d" | 14 => "e"
  | _ => "f"
  end%char.

Fixpoint hex (bs : list Z) : string :=
  match bs with
  | nil => EmptyString
  | b :: bs' =>
      String (hex_digit ((b mod 256) / 16))
        (String (hex_digit (b mod 16)) (hex bs'))
  end.

Definition is_lower_hex (c : ascii) : bool :=
  let n := byte_of_ascii c in
  ((48 <=? n) && (n <=? 57)) || ((97 <=? n) && (n <=? 102)).

End Bytes.

(* ===================================================================== *)
(** ** SHA-256 and HMAC (FIPS 180-4, RFC 2104)

    [crypto.createHmac("sha256", secret).update(msg).digest("hex")] *)
(* ===================================================================== *)

Module Sha256.

Definition w32 (x : Z) : Z := x mod 2 ^ 32.
Definition add32 (x y : Z) : Z := w32 (x + y).
Definition not32 (x : Z) : Z := 2 ^ 32 - 1 - x.
Definition rotr (n x : Z) : Z :=
  Z.lor (Z.shiftr x n) (w32 (Z.shiftl x (32 - n))).

Definition Ch (x y z : Z) : Z := Z.lxor (Z.land x y) (Z.land (not32 x) z).
Definition Maj (x y z : Z) : Z :=
  Z.lxor (Z.lxor (Z.land x y) (Z.land x z)) (Z.land y z).
Definition Sigma0 (x : Z) : Z := Z.lxor (Z.lxor (rotr 2 x) (rotr 13 x)) (rotr 22 x).
Definition Sigma1 (x : Z) : Z := Z.lxor (Z.lxor (rotr 6 x) (rotr 11 x)) (rotr 25 x).
Definition sigma0 (x : Z) : Z := Z.lxor (Z.lxor (rotr 7 x) (rotr 18 x)) (Z.shiftr x 3).
Definition sigma1 (x : Z) : Z := Z.lxor (Z.lxor (rotr 17 x) (rotr 19 x)) (Z.shiftr x 10).

(** The constants are derived as the standard defines them: the first 32
    bits of the fractional parts of the cube roots (round constants) and of
    the square roots (initial hash value) of the first primes. *)
Definition is_prime (n : Z) : bool :=
  forallb (fun d => negb (n mod Z.of_nat d =? 0)) (seq 2 (Z.to_nat n - 2)).

Definition primes (count : nat) : list Z :=
  firstn count (List.filter is_prime (List.map Z.of_nat (seq 2 400))).

(** The largest [r] below [2 ^ bits] with [r ^ 3 <= n], bit by bit;
    [r] is the root found so far. *)
Fixpoint cube_root (bits : nat) (r n : Z) : Z :=
  match bits with
  | O => r
  | S b =>
      let r' := r + 2 ^ Z.of_nat b in
      if r' ^ 3 <=? n then cube_root b r' n else cube_root b r n
  end.

Definition frac_cube_root (p : Z) : Z := w32 (cube_root 40 0 (p * 2 ^ 96)).
Definition frac_square_root (p : Z) : Z := w32 (Z.sqrt (p * 2 ^ 64)).

Definition K : list Z := Eval vm_compute in List.map frac_cube_root (primes 64).

(** The eight working variables / the chaining value. *)
Record state := State { sa : Z; sb : Z; sc : Z; sd : Z; se : Z; sf : Z; sg : Z; sh : Z }.

Definition state_of_list (l : list Z) : state :=
  match l with
  | a :: b :: c :: d :: e :: f :: g :: h :: _ => State a b c d e f g h
  | _ => State 0 0 0 0 0 0 0 0
  end.

Definition H0 : state :=
  Eval vm_compute in state_of_list (List.map frac_square_root (primes 8)).

(** Padding: a 1 bit, zeros up to 56 mod 64, the bit length on 8 bytes. *)
Definition be_bytes (n : nat) (x : Z) : list Z :=
  List.map (fun i => (Z.shiftr x (8 * Z.of_nat i)) mod 256) (rev (seq 0 n)).

Definition pad (msg : list Z) : list Z :=
  let len := Z.of_nat (length msg) in
  let zeros := Z.to_nat ((55 - len) mod 64) in
  msg ++ [128] ++ repeat 0 zeros ++ be_bytes 8 (8 * len).

Fixpoint be_word (bs : list Z) : Z :=
  match bs with
  | nil => 0
  | b :: bs' => b * 256 ^ Z.of_nat (length bs') + be_word bs'
  end.

(** Splitting into chunks of [n] elements; [fuel] bounds the number of
    chunks and is taken as the length of the input. *)
Fixpoint chunks {A} (fuel n : nat) (l : list A) : list (list A) :=
  match fuel, l with
  | O, _ | _, nil => nil
  | S fuel', _ => firstn n l :: chunks fuel' n (skipn n l)
  end.

Definition words_of_block (block : list Z) : list Z :=
  List.map be_word (chunks 16 4 block).

(** Message schedule: sixteen block words extended to sixty-four. *)
Fixpoint extend (k : nat) (w : list Z) : list Z :=
  match k with
  | O => w
  | S k' =>
      let t := length w in
      let at_ i := nth (t - i) w 0 in
      extend k' (w ++ [add32 (add32 (sigma1 (at_ 2%nat)) (at_ 7%nat))
                             (add32 (sigma0 (at_ 15%nat)) (at_ 16%nat))])
  end.

Definition round (s : state) (kw : Z * Z) : state :=
  let '(k, w) := kw in
  let t1 := add32 (add32 (add32 (sh s) (Sigma1 (se s))) (Ch (se s) (sf s) (sg s)))
                  (add32 k w) in
  let t2 := add32 (Sigma0 (sa s)) (Maj (sa s) (sb s) (sc s)) in
  State (add32 t1 t2) (sa s) (sb s) (sc s) (add32 (sd s) t1) (se s) (sf s) (sg s).

Definition compress (h : state) (block : list Z) : state :=
  let w := extend 48 (words_of_block block) in
  let s := fold_left round (combine K w) h in
  State (add32 (sa h) (sa s)) (add32 (sb h) (sb s))
        (add32 (sc h) (sc s)) (add32 (sd h) (sd s))
        (add32 (se h) (se s)) (add32 (sf h) (sf s))
        (add32 (sg h) (sg s)) (add32 (sh h) (sh s)).

Definition state_bytes (s : state) : list Z :=
  be_bytes 4 (sa s) ++ be_bytes 4 (sb s) ++ be_bytes 4 (sc s) ++ be_bytes 4 (sd s) ++
  be_bytes 4 (se s) ++ be_bytes 4 (sf s) ++ be_bytes 4 (sg s) ++ be_bytes 4 (sh s).

Definition sha256 (msg : list Z) : list Z :=
  let p := pad msg in
  state_bytes (fold_left compress (chunks (length p) 64 p) H0).

Definition hmac_sha256 (key msg : list Z) : list Z :=
  let k0 := if (64 <? Z.of_nat (length key)) then sha256 key else key in
  let k := k0 ++ repeat 0 (64 - length k0)%nat in
  let ipad := List.map (Z.lxor 0x36) k in
  let opad := List.map (Z.lxor 0x5c) k in
  sha256 (opad ++ sha256 (ipad ++ msg)).

(** [crypto.createHmac("sha256", secret).update(msg).digest("hex")] *)
Definition hmac_hex (secret msg : string) : string :=
  Bytes.hex (hmac_sha256 (Bytes.of_string secret) (Bytes.of_string msg)).

End Sha256.

(* ===================================================================== *)
(** ** The JavaScript fragment the handlers use *)
(* ===================================================================== *)

Module JS.

(** *** Exceptions *)

Record exn := Exn { name : string; message : string }.

Inductive result (A : Type) : Type :=
| Ok (a : A)
| Throw (e : exn).
Arguments Ok {A} a.
Arguments Throw {A} e.

Definition bind {A B} (m : result A) (k : A -> result B) : result B :=
  match m with
  | Ok a => k a
  | Throw e => Throw e
  end.

(** [try { m } catch (e) { h(e) }] *)
Definition try_catch {A} (m : result A) (h : exn -> result A) : result A :=
  match m with
  | Ok a => Ok a
  | Throw e => h e
  end.

(** *** Query-string values: a string, or an array of strings for a
    repeated parameter. *)

Inductive qval :=
| QStr (s : string)
| QArr (l : list string).

(** *** Objects: the own enumerable properties in enumeration order.
    An object has at most one property per key; [get] reads the first. *)

Definition obj (V : Type) := list (string * V).

Fixpoint get {V} (k : string) (o : obj V) : option V :=
  match o with
  | nil => None
  | (k', v) :: o' => if String.eqb k' k then Some v else get k o'
  end.

(** [const { k, ...rest } = o]: the rest object. *)
Definition omit {V} (k : string) (o : obj V) : obj V :=
  List.filter (fun p => negb (String.eqb (fst p) k)) o.

Definition Object_keys {V} (o : obj V) : list string := List.map fst o.

(** [o[k] = v] *)
Fixpoint put {V} (k : string) (v : V) (o : obj V) : obj V :=
  match o with
  | nil => (k, v) :: nil
  | (k', v') :: o' =>
      if String.eqb k' k then (k, v) :: o' else (k', v') :: put k v o'
  end.

(** The string [s] with the character at index [i] replaced by [c]. *)
Fixpoint mutate (i : nat) (c : ascii) (s : string) : string :=
  match s, i with
  | EmptyString, _ => EmptyString
  | String _ r, O => String c r
  | String a r, S i' => String a (mutate i' c r)
  end.

(** [Array.prototype.join] *)
Definition Array_join (sep : string) (l : list string) : string :=
  String.concat sep l.

(** *** Strings as the runtime compares them

    A JavaScript string is a sequence of UTF-16 code units and [x < y]
    compares code units.  [code_units] reads them off the UTF-8 bytes: a
    character of one, two or three bytes is one unit, a character of four
    bytes (the supplementary planes) is its pair of surrogates.  Bytes that
    are not UTF-8, which no JavaScript string gives, are taken as units as
    they are. *)
Fixpoint code_units (bs : list Z) : list Z :=
  match bs with
  | nil => nil
  | b0 :: r0 =>
      if b0 <? 0xC0 then b0 :: code_units r0 else
      match r0 with
      | nil => b0 :: nil
      | b1 :: r1 =>
          if b0 <? 0xE0
          then ((b0 - 0xC0) * 64 + (b1 - 0x80)) :: code_units r1
          else
          match r1 with
          | nil => b0 :: b1 :: nil
          | b2 :: r2 =>
              if b0 <? 0xF0
              then ((b0 - 0xE0) * 4096 + (b1 - 0x80) * 64 + (b2 - 0x80))
                   :: code_units r2
              else
              match r2 with
              | nil => b0 :: b1 :: b2 :: nil
              | b3 :: r3 =>
                  let c := (b0 - 0xF0) * 262144 + (b1 - 0x80) * 4096
                           + (b2 - 0x80) * 64 + (b3 - 0x80) - 0x10000 in
                  (0xD800 + c / 1024) :: (0xDC00 + c mod 1024) :: code_units r3
              end
          end
      end
  end.

(** [x < y] on strings: the first code unit that differs decides, and a
    proper prefix is smaller.  Two strings with the same code units are
    the same JavaScript string; byte sequences that are not UTF-8 are told
    apart bytewise, which makes the comparison an order on every
    [string]. *)
Definition String_lt (x y : string) : bool :=
  match list_compare Z.compare (code_units (Bytes.of_string x))
                               (code_units (Bytes.of_string y)) with
  | Lt => true
  | Gt => false
  | Eq => String.ltb x y
  end.

(** [Array.prototype.sort()] without a comparator: elements are compared
    as strings, [x] before [y] when [x < y]; the sort is stable. *)
Fixpoint sort_insert (x : string) (l : list string) : list string :=
  match l with
  | nil => x :: nil
  | y :: l' => if String_lt x y then x :: l else y :: sort_insert x l'
  end.

Definition Array_sort (l : list string) : list string :=
  List.fold_left (fun acc x => sort_insert x acc) l nil.

(** *** The runtime outside the repository.
    [to_uint8] is the coercion a typed array applies to an element that is
    a string, [ToUint8(ToNumber(s))]; [pg_array_literal] is the text the
    database driver sends for an array parameter. *)
Record runtime := Runtime {
  to_uint8 : string -> Z;
  pg_array_literal : list string -> string
}.

(** [Buffer.from(v, "utf-8")]: the bytes of a string, one byte per element
    of an array, and a [TypeError] for [undefined]. *)
Definition Buffer_from (rt : runtime) (v : option qval) : result (list Z) :=
  match v with
  | Some (QStr s) => Ok (Bytes.of_string s)
  | Some (QArr l) => Ok (List.map (fun x => to_uint8 rt x mod 256) l)
  | None => Throw (Exn "TypeError" "ERR_INVALID_ARG_TYPE")
  end.

(** [crypto.timingSafeEqual(a, b)]: a [RangeError] when the byte lengths
    differ, otherwise whether the contents are equal. *)
Definition timingSafeEqual (a b : list Z) : result bool :=
  if Nat.eqb (length a) (length b)
  then Ok (bool_decide (a = b))
  else Throw (Exn "RangeError" "ERR_CRYPTO_TIMING_SAFE_EQUAL_LENGTH").

End JS.

Import JS.

(* ===================================================================== *)
(** ** The signature verifier (the variant that checks the HMAC) *)
(* ===================================================================== *)

Module Verifier.

(** The template literal [`${k}=${Array.isArray(rest[k]) ? rest[k].join(",") : rest[k]}`] *)
Definition render (v : option qval) : string :=
  match v with
  | Some (QArr l) => Array_join "," l
  | Some (QStr s) => s
  | None => "undefined"
  end.

Definition pair_of (rest : obj qval) (k : string) : string :=
  k +:+ "=" +:+ render (get k rest).

(** The canonical message: the sorted keys of [rest], each rendered as
    [key=value], joined with [&]. *)
Definition message (query : obj qval) : string :=
  let rest := omit "hmac" query in
  Array_join "&" (List.map (pair_of rest) (Array_sort (Object_keys rest))).

Definition verifyProxyHmac (rt : runtime) (query : obj qval) (secret : string)
  : result bool :=
  let hmac := get "hmac" query in
  let msg := message query in
  let digest := Sha256.hmac_hex secret msg in
  try_catch
    (bind (Buffer_from rt hmac) (fun given =>
       timingSafeEqual (Bytes.of_string digest) given))
    (fun _ => Ok false).

End Verifier.

(* ===================================================================== *)
(** ** JSON values: request bodies, downstream responses, response bodies *)
(* ===================================================================== *)

Module Json.

(** The handlers only test a number for being zero, print it, or pass it
    on.  [JNum n] is the number the integer [n] denotes, the double nearest
    to it (minus zero is kept as [JNum 0]: it is falsy and printed [0]).
    [JFrac text] is a finite number with a fractional part, kept as the
    text [Number::toString] gives for it, [2.5] or [1e-7], which is also
    how [JSON.stringify] writes it. *)
Inductive json :=
| JNull
| JBool (b : bool)
| JNum (n : Z)
| JStr (s : string)
| JArr (l : list json)
| JObj (o : obj json)
| JFrac (text : string).

(** A JavaScript value is a JSON value or [undefined]. *)
Abbreviation value := (option json).

Definition cannot_read (what k : string) : exn :=
  Exn "TypeError"
    ("Cannot read properties of " +:+ what +:+ " (reading '" +:+ k +:+ "')").

(** [v.k] for the property names the handlers use (none is an array
    index).  The length of a string is only ever tested for being zero. *)
Definition prop (v : value) (k : string) : result value :=
  match v with
  | None => Throw (cannot_read "undefined" k)
  | Some JNull => Throw (cannot_read "null" k)
  | Some (JObj o) => Ok (get k o)
  | Some (JArr l) =>
      Ok (if String.eqb k "length" then Some (JNum (Z.of_nat (length l))) else None)
  | Some (JStr s) =>
      Ok (if String.eqb k "length" then Some (JNum (Z.of_nat (String.length s))) else None)
  | Some (JNum _) | Some (JBool _) | Some (JFrac _) => Ok None
  end.

(** [v?.k] *)
Definition opt_prop (v : value) (k : string) : result value :=
  match v with
  | None | Some JNull => Ok None
  | _ => prop v k
  end.

Definition truthy (v : value) : bool :=
  match v with
  | None | Some JNull => false
  | Some (JBool b) => b
  | Some (JNum n) => negb (n =? 0)
  | Some (JStr s) => negb (String.eqb s "")
  | Some (JArr _) | Some (JObj _) | Some (JFrac _) => true
  end.

(** [a || b] *)
Definition or_else (a b : value) : value := if truthy a then a else b.

(** A destructuring default [{ k = d }]: used when the property is
    [undefined], not when it is [null]. *)
Definition default_to (d : json) (v : value) : json :=
  match v with
  | None => d
  | Some x => x
  end.

Definition string_of_Z (n : Z) : string :=
  DecimalString.NilZero.string_of_int (Z.to_int n).

(** *** Numbers *)

Inductive number :=
| NaN
| Infinity (negative : bool)
| Finite (n : Z).

(** Rounding a non-negative integer to the nearest double, ties to even. *)
Definition round_double (n : Z) : number :=
  let k := Z.log2 n - 52 in
  if k <=? 0 then Finite n else
  let q := n / 2 ^ k in
  let r := n mod 2 ^ k in
  let half := 2 ^ (k - 1) in
  let q' := if r <? half then q
            else if half <? r then q + 1
            else if Z.even q then q else q + 1 in
  if 2 ^ 1024 <=? q' * 2 ^ k then Infinity false else Finite (q' * 2 ^ k).

(** *** [Number::toString] of an integer

    An integer below [2 ^ 53] is written with all its digits.  From there
    on a number is written with the fewest digits [s] for which
    [s * 10 ^ (n - k)] still is that number (rounds to it), the closest such
    [s]: followed by zeros while the number has at most 21 digits,
    [1152921504606847000] for [2 ^ 60], and in exponent form beyond,
    [1e+21], [1.5e+22]. *)
Definition rounds_to (v s unit : Z) : bool :=
  match round_double (s * unit) with
  | Finite x => x =? v
  | _ => false
  end.

(** The digits of [v], which has [n] decimal digits, from [k] digits on. *)
Fixpoint shortest (fuel : nat) (k n v : Z) : Z * Z :=
  let unit := 10 ^ (n - k) in
  let lo := v / unit in
  let hi := lo + 1 in
  let below := v - lo * unit in
  let above := hi * unit - v in
  let closest := if below <? above then lo
                 else if above <? below then hi
                 else if Z.even lo then lo else hi in
  let other := if closest =? lo then hi else lo in
  if rounds_to v closest unit then (closest, k)
  else if rounds_to v other unit then (other, k)
  else match fuel with
       | O => (lo, k)
       | S fuel' => shortest fuel' (k + 1) n v
       end.

Definition zeros (count : Z) : string :=
  string_of_list_ascii (repeat "0"%char (Z.to_nat count)).

Definition shortest_form (v : Z) : string :=
  let n := Z.of_nat (String.length (string_of_Z v)) in
  let '(s, k) := shortest 16 1 n v in
  let '(ds, n') := if s =? 10 ^ k then ("1"%string, n + 1) else (string_of_Z s, n) in
  if n' <=? 21 then ds +:+ zeros (n' - Z.of_nat (String.length ds)) else
  match ds with
  | EmptyString => EmptyString
  | String d EmptyString => String d ("e+" +:+ string_of_Z (n' - 1))
  | String d more => String d ("." +:+ more +:+ "e+" +:+ string_of_Z (n' - 1))
  end.

Definition Number_toString (n : Z) : string :=
  match round_double (Z.abs n) with
  | Finite v =>
      if v <? 2 ^ 53 then string_of_Z (if n <? 0 then - v else v)
      else if n <? 0 then "-" +:+ shortest_form v
      else shortest_form v
  | Infinity _ => if n <? 0 then "-Infinity" else "Infinity"
  | NaN => "NaN"
  end.

(** [String(v)] / [v.toString()]; inside [Array.prototype.join] a [null]
    element is rendered as the empty string. *)
Fixpoint toString (v : json) : string :=
  match v with
  | JNull => "null"
  | JBool true => "true"
  | JBool false => "false"
  | JNum n => Number_toString n
  | JFrac text => text
  | JStr s => s
  | JArr l =>
      Array_join ","
        (List.map (fun x => match x with JNull => EmptyString | _ => toString x end) l)
  | JObj _ => "[object Object]"
  end.

Definition json_of_qval (v : qval) : json :=
  match v with
  | QStr s => JStr s
  | QArr l => JArr (List.map JStr l)
  end.

(** *** [parseInt(s, 10)] *)

(** White space and line terminators, as UTF-8 byte sequences. *)
Fixpoint strip_ws (bs : list Z) : list Z :=
  match bs with
  | 9 :: r | 10 :: r | 11 :: r | 12 :: r | 13 :: r | 32 :: r => strip_ws r
  | 0xC2 :: 0xA0 :: r => strip_ws r
  | 0xE1 :: 0x9A :: 0x80 :: r => strip_ws r
  | 0xE2 :: 0x80 :: b :: r =>
      if ((0x80 <=? b) && (b <=? 0x8A)) || (b =? 0xA8) || (b =? 0xA9) || (b =? 0xAF)
      then strip_ws r else bs
  | 0xE2 :: 0x81 :: 0x9F :: r => strip_ws r
  | 0xE3 :: 0x80 :: 0x80 :: r => strip_ws r
  | 0xEF :: 0xBB :: 0xBF :: r => strip_ws r
  | _ => bs
  end.

(** The longest prefix of decimal digits, as an integer; [None] when
    there is no digit. *)
Fixpoint digits (bs : list Z) (acc : option Z) : option Z :=
  match bs with
  | b :: r =>
      if (48 <=? b) && (b <=? 57)
      then digits r (Some (10 * default 0 acc + (b - 48)))
      else acc
  | nil => acc
  end.

Definition negate (x : number) : number :=
  match x with
  | NaN => NaN
  | Infinity s => Infinity (negb s)
  | Finite n => Finite (- n)
  end.

Definition parseInt10 (s : string) : number :=
  let bs := strip_ws (Bytes.of_string s) in
  let '(neg, ds) :=
    match bs with
    | 45 :: r => (true, r)
    | 43 :: r => (false, r)
    | _ => (false, bs)
    end in
  match digits ds None with
  | None => NaN
  | Some n => if neg then negate (round_double n) else round_double n
  end.

(** How [JSON.stringify] writes a number. *)
Definition json_of_number (x : number) : json :=
  match x with
  | Finite n => JNum n
  | _ => JNull
  end.

End Json.

Import Json.

(* ===================================================================== *)
(** ** The credential store: table [shop_sessions] *)
(* ===================================================================== *)

Module Store.

(** [shop text primary key, access_token text not null, scope text,
     created_at timestamptz default now()] *)
Record row := Row {
  access_token : string;
  scope : option string;
  created_at : Z
}.

Abbreviation table := (gmap string row).

Inductive sql_error :=
| UniqueViolation
| NotNullViolation
| InvalidByteSequence.

Inductive outcome :=
| Done (t : table)
| Failed (e : sql_error).

(** [insert into shop_sessions(shop, access_token, scope) values($1,$2,$3)]
    at time [now]; a parameter that is [undefined] or [null] is SQL NULL.
    The parameters are values the server has taken as text, see
    [bind_upsert] below. *)
Definition insert (now : Z) (shop token sc : option string) (t : table) : outcome :=
  match shop, token with
  | Some s, Some tok =>
      match t !! s with
      | Some _ => Failed UniqueViolation
      | None => Done (<[s := Row tok sc now]> t)
      end
  | _, _ => Failed NotNullViolation
  end.

(** [... on conflict(shop) do update
         set access_token=excluded.access_token, scope=excluded.scope] *)
Definition on_conflict_update (shop token sc : option string) (t : table) : outcome :=
  match shop, token with
  | Some s, Some tok =>
      Done (alter (fun r => Row tok sc (created_at r)) s t)
  | _, _ => Failed NotNullViolation
  end.

(** The statement of the OAuth callback. *)
Definition upsert (now : Z) (shop token sc : option string) (t : table) : outcome :=
  match insert now shop token sc t with
  | Failed UniqueViolation => on_conflict_update shop token sc t
  | r => r
  end.

(** [select access_token from shop_sessions where shop=$1]: the rows. *)
Definition select_access_token (t : table) (shop : option string) : list string :=
  match shop with
  | Some s =>
      match t !! s with
      | Some r => access_token r :: nil
      | None => nil
      end
  | None => nil
  end.

(** *** Binding the parameters

    Text cannot hold U+0000: the server rejects a text parameter that
    contains one when the parameter is bound, before the statement runs. *)
Definition has_nul (s : string) : bool := existsb (Z.eqb 0) (Bytes.of_string s).

Definition rejected (param : option string) : bool :=
  match param with
  | Some s => has_nul s
  | None => false
  end.

Definition invalid_byte_sequence : exn :=
  Exn "error"
    ("invalid byte sequence for encoding "
       +:+ String (ascii_of_nat 34) ("UTF8" +:+ String (ascii_of_nat 34) ": 0x00")).

(** The statement of the OAuth callback as the server runs it. *)
Definition bind_upsert (now : Z) (shop token sc : option string) (t : table) : outcome :=
  if rejected shop || rejected token || rejected sc
  then Failed InvalidByteSequence
  else upsert now shop token sc t.

(** The select as the server runs it.  No stored shop contains U+0000 (the
    insert is rejected the same way), so a parameter that matches a row
    has none; one that matches no row is either rejected or gives no
    rows. *)
Definition bind_select (t : table) (shop : option string) : result (list string) :=
  match select_access_token t shop with
  | nil => if rejected shop then Throw invalid_byte_sequence else Ok nil
  | rows => Ok rows
  end.


End Store.

(* ===================================================================== *)
(** ** Requests, responses and the outside world *)
(* ===================================================================== *)

Module Http.

Record request := Request {
  query : obj qval;   (* req.query *)
  body : value        (* req.body *)
}.

Record response := Response {
  status : Z;
  payload : json
}.

(** [fetch(url, { method: "POST", headers: { "X-Shopify-Access-Token":
    token, "Content-Type": "application/json" }, body: JSON.stringify(sent) })] *)
Record fetch_request := FetchRequest {
  url : string;
  token : string;
  sent : json
}.

(** What the downstream call does: the promise rejects, or a response
    arrives with a status and a body that [json()] parses or rejects. *)
Inductive fetch_result :=
| Rejected (e : exn)
| Responded (code : Z) (parsed : result json).

Record world := World {
  DATABASE_URL_set : bool;
  database : result Store.table;     (* [Throw]: the store is unreachable *)
  downstream : fetch_request -> fetch_result
}.

Inductive event :=
| CreateTable
| SelectToken (shop : option string)
| Fetch (r : fetch_request).

(** A handler step: the external calls made, then a value or an exception. *)
Definition io (A : Type) : Type := list event * result A.

Definition io_ret {A} (a : A) : io A := (nil, Ok a).

Definition io_bind {A B} (m : io A) (k : A -> io B) : io B :=
  match m with
  | (tr, Ok a) => let '(tr', r) := k a in (tr ++ tr', r)
  | (tr, Throw e) => (tr, Throw e)
  end.

Definition lift {A} (r : result A) : io A := (nil, r).

(** A handler always answers: the exception branch is the [catch] of
    the handler. *)
Definition answer (fallback : response) (m : io response) : list event * response :=
  match m with
  | (tr, Ok r) => (tr, r)
  | (tr, Throw _) => (tr, fallback)
  end.

(** [await pool.query("select access_token ...", [shop])] *)
Definition pool_query_select (w : world) (shop : option string) : io (list string) :=
  (SelectToken shop :: nil,
   JS.bind (database w) (fun t => Store.bind_select t shop)).

(** [res.status(s).json({ ok: false, error: msg })] *)
Definition error_response (s : Z) (msg : string) : response :=
  Response s (JObj [("ok", JBool false); ("error", JStr msg)]%string).

(** A property that is [undefined] is left out by [JSON.stringify]. *)
Definition field (k : string) (v : value) : obj json :=
  match v with
  | Some x => (k, x) :: nil
  | None => nil
  end.

Definition tags : json := JArr [JStr "COD"; JStr "COD-App"].

End Http.

Import Http.

#[global] Instance io_mret : MRet io := @io_ret.
#[global] Instance io_mbind : MBind io := fun A B k m => io_bind m k.

(* ===================================================================== *)
(** ** [POST /proxy/cod] with the HMAC check (GraphQL draft order) *)
(* ===================================================================== *)

Module Gated.

Import Verifier.

(** A query parameter as the database driver sends it. *)
Definition pg_param (rt : runtime) (v : option qval) : option string :=
  match v with
  | None => None
  | Some (QStr s) => Some s
  | Some (QArr l) => Some (pg_array_literal rt l)
  end.

(** [const { lineItems = [], customer = {}, shippingAddress = {},
            note = "COD order", codFee = 0 } = req.body || {}] *)
Record order_fields := OrderFields {
  lineItems : json;
  customer : json;
  shippingAddress : json;
  note : json;
  codFee : json
}.

Definition destructure (body : value) : result order_fields :=
  let b := or_else body (Some (JObj nil)) in
  JS.bind (prop b "lineItems") (fun li =>
  JS.bind (prop b "customer") (fun cu =>
  JS.bind (prop b "shippingAddress") (fun sa =>
  JS.bind (prop b "note") (fun no =>
  JS.bind (prop b "codFee") (fun fee =>
  Ok (OrderFields (default_to (JArr nil) li) (default_to (JObj nil) cu)
                  (default_to (JObj nil) sa) (default_to (JStr "COD order") no)
                  (default_to (JNum 0) fee))))))).

Definition String_of (v : value) : string :=
  match v with
  | Some x => toString x
  | None => "undefined"
  end.

(** [li => ({ variantId: li.variantId,
              quantity: parseInt(li.quantity || "1", 10) })] *)
Definition line_item (li : json) : result json :=
  JS.bind (prop (Some li) "variantId") (fun variantId =>
  JS.bind (prop (Some li) "quantity") (fun quantity =>
  Ok (JObj (field "variantId" variantId ++
            [("quantity"%string,
              json_of_number
                (parseInt10 (String_of (or_else quantity (Some (JStr "1"))))))])))).

Fixpoint Array_map (f : json -> result json) (l : list json) : result (list json) :=
  match l with
  | nil => Ok nil
  | x :: l' =>
      JS.bind (f x) (fun y => JS.bind (Array_map f l') (fun ys => Ok (y :: ys)))
  end.

(** [lineItems.map(...)]: only an array has [map]. *)
Definition map_line_items (v : json) : result json :=
  match v with
  | JArr l => JS.bind (Array_map line_item l) (fun items => Ok (JArr items))
  | JNull => Throw (cannot_read "null" "map")
  | _ => Throw (Exn "TypeError" "lineItems.map is not a function")
  end.

(** [draftInput], as [JSON.stringify] writes it. *)
Definition draftInput (f : order_fields) : result json :=
  JS.bind (prop (Some (customer f)) "email") (fun email =>
  JS.bind (map_line_items (lineItems f)) (fun items =>
  Ok (JObj ([("note", note f);
             ("tags", tags);
             ("email", default_to JNull (or_else email (Some JNull)));
             ("shippingAddress", shippingAddress f);
             ("billingAddress", shippingAddress f)]%string
            ++ (if truthy email then field "customer" (Some (JObj (field "email" email)))
                else nil)
            ++ [("lineItems"%string, items)])))).

Definition gql : string :=
"#graphql
      mutation draftOrderCreate($input: DraftOrderInput!) {
        draftOrderCreate(input: $input) {
          draftOrder { id invoiceUrl name }
          userErrors { field message }
        }
      }".

(** [await fetch(...).then(r => r.json())] *)
Definition fetch_json (w : world) (r : fetch_request) : io json :=
  (Fetch r :: nil,
   match downstream w r with
   | Rejected e => Throw e
   | Responded _ parsed => parsed
   end).

Definition created (id invoiceUrl : value) : response :=
  Response 200
    (JObj (("ok"%string, JBool true) :: field "draftOrderId" id ++ field "invoiceUrl" invoiceUrl)).

Definition rejected (errors : value) : response :=
  Response 400 (JObj (("ok"%string, JBool false) :: field "errors" errors)).

(** After the downstream call: top-level [errors] and non-empty
    [userErrors] are passed on with status 400, otherwise the draft order
    is reported. *)
Definition relay_result (resp : json) : result response :=
  JS.bind (prop (Some resp) "errors") (fun errors =>
  if truthy errors then Ok (rejected errors) else
  JS.bind (prop (Some resp) "data") (fun data =>
  JS.bind (opt_prop data "draftOrderCreate") (fun doc =>
  JS.bind (opt_prop doc "userErrors") (fun ue =>
  JS.bind (if truthy ue then prop ue "length" else Ok ue) (fun nonempty =>
  if truthy nonempty then Ok (rejected ue) else
  JS.bind (prop data "draftOrderCreate") (fun doc' =>
  JS.bind (prop doc' "draftOrder") (fun draft =>
  JS.bind (prop draft "id") (fun id =>
  JS.bind (prop draft "invoiceUrl") (fun invoiceUrl =>
  Ok (created id invoiceUrl)))))))))).

Definition graphql_request (shop : option qval) (accessToken : string)
    (input : json) : fetch_request :=
  FetchRequest
    ("https://" +:+ render shop +:+ "/admin/api/2025-07/graphql.json")
    accessToken
    (JObj [("query", JStr gql);
           ("variables", JObj [("input", input)])]%string).

Definition proxy_cod (rt : runtime) (SHOPIFY_API_SECRET : string)
    (w : world) (req : request) : list event * response :=
  answer (error_response 500 "Server error")
    (valid ← lift (verifyProxyHmac rt (query req) SHOPIFY_API_SECRET);
     if negb valid then mret (error_response 403 "Bad HMAC") else
     let shop := get "shop" (query req) in
     rows ← pool_query_select w (pg_param rt shop);
     match rows with
     | nil => mret (error_response 401 "Shop not installed")
     | accessToken :: _ =>
         fields ← lift (destructure (body req));
         input ← lift (draftInput fields);
         resp ← fetch_json w (graphql_request shop accessToken input);
         lift (relay_result resp)
     end).

End Gated.

(* ===================================================================== *)
(** ** [POST /proxy/cod] of [server.js] (REST draft order, no HMAC check) *)
(* ===================================================================== *)

Module Server.

(** [ensureTablesSafe()]: nothing without a pool; otherwise the
    [create table if not exists] is sent and any failure is swallowed. *)
Definition ensureTablesSafe (w : world) : io unit :=
  if DATABASE_URL_set w then (CreateTable :: nil, Ok tt) else (nil, Ok tt).

(** [(req.query.shop || req.body.shop || "").toString()] *)
Definition resolve_shop (req : request) : result string :=
  let from_query := json_of_qval <$> get "shop" (query req) in
  if truthy from_query then Ok (Gated.String_of from_query)
  else
    JS.bind (prop (body req) "shop") (fun from_body =>
    Ok (Gated.String_of (or_else from_body (Some (JStr ""))))).

Definition payload : json :=
  JObj [("draft_order",
         JObj [("line_items",
                JArr [JObj [("title", JStr "Cash on Delivery");
                            ("quantity", JNum 1);
                            ("price", JStr "0.00")]]);
               ("note", JStr "COD order");
               ("tags", tags)])]%string.

(** [await fetch(...)], then [await resp.json()]: the status and the
    parsed body. *)
Definition fetch_rest (w : world) (r : fetch_request) : io (Z * json) :=
  (Fetch r :: nil,
   match downstream w r with
   | Rejected e => Throw e
   | Responded code parsed => JS.bind parsed (fun data => Ok (code, data))
   end).

(** [resp.ok] *)
Definition ok_status (code : Z) : bool := (200 <=? code) && (code <=? 299).

Definition relayed (code : Z) (success : bool) (data : json) : response :=
  Response code (JObj [("ok", JBool success); ("data", data)]%string).

(** The [catch] of the handler: [e.message || "Server error"]. *)
Definition failure (e : exn) : response :=
  error_response 500
    (if String.eqb (message e) "" then "Server error" else message e).

Definition rest_request (shop accessToken : string) : fetch_request :=
  FetchRequest
    ("https://" +:+ shop +:+ "/admin/api/2024-04/draft_orders.json")
    accessToken payload.

Definition handler (w : world) (req : request) : io response :=
  _ ← ensureTablesSafe w;
  shop ← lift (resolve_shop req);
  if String.eqb shop "" then mret (error_response 400 "Missing shop") else
  if negb (DATABASE_URL_set w) then mret (error_response 500 "DB not configured") else
  rows ← pool_query_select w (Some shop);
  match rows with
  | nil => mret (error_response 401 "Shop not installed")
  | accessToken :: _ =>
      '(code, data) ← fetch_rest w (rest_request shop accessToken);
      if negb (ok_status code) then mret (relayed code false data)
      else mret (relayed 200 true data)
  end.

Definition proxy_cod (w : world) (req : request) : list event * response :=
  match handler w req with
  | (tr, Ok r) => (tr, r)
  | (tr, Throw e) => (tr, failure e)
  end.

End Server.

(* ===================================================================== *)
(** ** The verification algorithm as the specification words it *)
(* ===================================================================== *)

Module Spec.

Definition signature_field : string := "hmac".

(** Lexicographic order on byte sequences. *)
Fixpoint byte_le (a b : list Z) : bool :=
  match a, b with
  | nil, _ => true
  | _ :: _, nil => false
  | x :: a', y :: b' => (x <? y) || ((x =? y) && byte_le a' b')
  end.

Definition key_le (j k : string) : bool :=
  byte_le (Bytes.of_string j) (Bytes.of_string k).

(** Step 1: remove the signature field from the parameter set. *)
Definition remaining (params : obj qval) : obj qval :=
  List.filter (fun p => negb (String.eqb (fst p) signature_field)) params.

(** Step 2: multi-valued parameters joined with a comma, single-valued
    parameters as they are. *)
Definition render_value (v : qval) : string :=
  match v with
  | QArr values => String.concat "," values
  | QStr s => s
  end.

Definition rendered (params : obj qval) : obj string :=
  List.map (fun p => (fst p, render_value (snd p))) (remaining params).

(** Step 3: the keys in lexicographic byte order. *)
Definition key_order : relation string := fun j k => key_le j k = true.

#[global] Instance key_order_dec : RelDecision key_order :=
  fun j k => decide (key_le j k = true).

Definition sort_keys (keys : list string) : list string :=
  merge_sort key_order keys.

(** Step 4: [key=value] pairs joined with [&] in that order. *)
Definition value_of (k : string) (pairs : obj string) : string :=
  match get k pairs with
  | Some v => v
  | None => EmptyString
  end.

Definition canonical (params : obj qval) : string :=
  let pairs := rendered params in
  String.concat "&"
    (List.map (fun k => k +:+ "=" +:+ value_of k pairs)
              (sort_keys (List.map fst pairs))).

(** Step 5: HMAC-SHA256 under the secret, in lowercase hexadecimal. *)
Definition digest (secret : string) (params : obj qval) : string :=
  Bytes.hex (Sha256.hmac_sha256 (Bytes.of_string secret)
                                (Bytes.of_string (canonical params))).

(** The decision: the supplied signature equals the digest. *)
Definition verify (params : obj qval) (secret : string) : bool :=
  match get signature_field params with
  | Some (QStr supplied) => String.eqb supplied (digest secret params)
  | _ => false
  end.

(** *** The algorithm with the order and the comparison the code has

    Step 3 with the keys in the order of their UTF-16 code units: the
    first code unit that differs decides and a proper prefix comes
    first. *)
Definition units_le (j k : string) : bool :=
  match list_compare Z.compare (code_units (Bytes.of_string j))
                               (code_units (Bytes.of_string k)) with
  | Lt => true
  | Gt => false
  | Eq => key_le j k
  end.

Definition unit_order : relation string := fun j k => units_le j k = true.

#[global] Instance unit_order_dec : RelDecision unit_order :=
  fun j k => decide (units_le j k = true).

Definition sort_keys16 (keys : list string) : list string :=
  merge_sort unit_order keys.

Definition canonical16 (params : obj qval) : string :=
  let pairs := rendered params in
  String.concat "&"
    (List.map (fun k => k +:+ "=" +:+ value_of k pairs)
              (sort_keys16 (List.map fst pairs))).

Definition digest16 (secret : string) (params : obj qval) : string :=
  Bytes.hex (Sha256.hmac_sha256 (Bytes.of_string secret)
                                (Bytes.of_string (canonical16 params))).

(** The decision on bytes: a string is compared with the digest as it is,
    a repeated signature parameter value by value, each value coerced to a
    byte by [coerce]; an absent signature is refused. *)
Definition accepts (coerce : string -> Z) (params : obj qval) (secret : string) : bool :=
  match get signature_field params with
  | Some (QStr supplied) => String.eqb supplied (digest16 secret params)
  | Some (QArr values) =>
      bool_decide (List.map (fun v => coerce v mod 256) values
                   = Bytes.of_string (digest16 secret params))
  | None => false
  end.

(** A key of ASCII characters only. *)
Definition ascii_key (k : string) : Prop :=
  forallb (fun b => b <? 128) (Bytes.of_string k) = true.

End Spec.

(* ===================================================================== *)
(** ** Predicates the claims are stated with *)
(* ===================================================================== *)


(** A property of [req.body || {}]. *)
Definition body_field (body : value) (k : string) : value :=
  match prop (or_else body (Some (JObj nil))) k with
  | Ok v => v
  | Throw _ => None
  end.

(** A line item of the draft order mirrors the line item of the request:
    its [variantId] when it has one, and as quantity the integer
    [parseInt] reads off the text of the request's quantity ([null] in the
    JSON sent when that text does not start with a number), 1 when the
    request gives no quantity or a falsy one. *)
Definition item_built (li item : json) : Prop :=
  exists variantId quantity,
    prop (Some li) "variantId" = Ok variantId /\
    prop (Some li) "quantity" = Ok quantity /\
    item = JObj (field "variantId" variantId ++
                 [("quantity"%string,
                   if truthy quantity
                   then json_of_number (parseInt10 (Gated.String_of quantity))
                   else JNum 1)]).

(** The draft order input is built from the request body's line items,
    customer, shipping address and note, with the two fixed tags, and has
    no other property. *)
Definition payload_built (body : value) (input : json) : Prop :=
  exists lis items email,
    prop (Some (default_to (JObj nil) (body_field body "customer"))) "email" = Ok email /\
    default_to (JArr nil) (body_field body "lineItems") = JArr lis /\
    Forall2 item_built lis items /\
    input
    = JObj ([("note", default_to (JStr "COD order") (body_field body "note"));
             ("tags", JArr [JStr "COD"; JStr "COD-App"]);
             ("email", if truthy email then default_to JNull email else JNull);
             ("shippingAddress", default_to (JObj nil) (body_field body "shippingAddress"));
             ("billingAddress", default_to (JObj nil) (body_field body "shippingAddress"))]%string
            ++ (if truthy email then [("customer"%string, JObj (field "email" email))]
                else nil)
            ++ [("lineItems"%string, JArr items)]).

(* ===================================================================== *)
(** ** Running the model *)
(* ===================================================================== *)

Module Demo.

(** A runtime to run the examples with.  [decimal_byte] reads a plain
    decimal numeral (digits only) as the runtime does and any other text
    as 0; [arrayString] is the driver's array literal: the elements in
    double quotes, backslashes and double quotes escaped. *)
Definition decimal_byte (s : string) : Z :=
  if forallb (fun b => (48 <=? b) && (b <=? 57)) (Bytes.of_string s)
  then match parseInt10 s with Finite n => n | _ => 0 end
  else 0.

Definition dquote : string := String (ascii_of_nat 34) EmptyString.

Fixpoint escapeElement (s : string) : string :=
  match s with
  | EmptyString => EmptyString
  | String c r =>
      if (Ascii.eqb c "\") || (Ascii.eqb c (ascii_of_nat 34))
      then String "\" (String c (escapeElement r))
      else String c (escapeElement r)
  end.

Definition arrayString (l : list string) : string :=
  "{" +:+ Array_join "," (List.map (fun x => dquote +:+ escapeElement x +:+ dquote) l)
      +:+ "}".

Definition node : runtime := Runtime decimal_byte arrayString.

Definition secret : string := "hush".

Definition installed : Store.table :=
  <[ "demo.example"%string := Store.Row "shpat_1" (Some "write_draft_orders"%string) 1700000000 ]> ∅.

Definition order_created : json :=
  JObj [("data",
         JObj [("draftOrderCreate",
                JObj [("draftOrder",
                       JObj [("id", JStr "gid://order/1");
                             ("invoiceUrl", JStr "https://demo.example/invoice/1");
                             ("name", JStr "#D1")]);
                      ("userErrors", JArr nil)])])]%string.

Definition shop_up : world :=
  World true (Ok installed) (fun _ => Responded 200 (Ok order_created)).

Definition params : obj qval :=
  [("shop", QStr "demo.example"); ("timestamp", QStr "1700000000");
   ("path_prefix", QStr "/apps/cod"); ("ids", QArr ["2"; "1"])]%string.

(** The digest of [params] under [secret]. *)
Definition signature : string :=
  "8f04f60732ddb1b833e5f074ddc152c40b1641f6417234f16e391fc5ef8d4e7f".

Definition signed : obj qval := put "hmac" (QStr signature) params.

(** The same parameters, enumerated in the opposite order. *)
Definition reordered : obj qval := rev signed.

Definition order_body : json :=
  JObj [("lineItems",
         JArr [JObj [("variantId", JStr "gid://variant/1")];
               JObj [("variantId", JStr "gid://variant/2"); ("quantity", JNum 3)]]);
        ("customer", JObj [("email", JStr "buyer@demo.example")]);
        ("shippingAddress", JObj [("city", JStr "Lahore")]);
        ("note", JStr "call before delivery");
        ("codFee", JNum 50)]%string.

(** [order_body] without its [codFee]. *)
Definition order_body_no_fee : json :=
  JObj [("lineItems",
         JArr [JObj [("variantId", JStr "gid://variant/1")];
               JObj [("variantId", JStr "gid://variant/2"); ("quantity", JNum 3)]]);
        ("customer", JObj [("email", JStr "buyer@demo.example")]);
        ("shippingAddress", JObj [("city", JStr "Lahore")]);
        ("note", JStr "call before delivery")]%string.

Definition signed_request : request := Request signed (Some order_body).

(** A request to [server.js] that carries no query string at all and
    names the shop in its body. *)
Definition unsigned_body : json :=
  JObj [("shop", JStr "demo.example");
        ("lineItems", JArr [JObj [("variantId", JStr "gid://variant/1");
                                  ("quantity", JNum 3)]]);
        ("codFee", JNum 50)]%string.

Definition unsigned_request : request := Request nil (Some unsigned_body).

(** The parameters with a signature that is not their digest. *)
Definition forged : obj qval :=
  put "hmac"
    (QStr "0000000000000000000000000000000000000000000000000000000000000000")
    params.


End Demo.

(* ===================================================================== *)
(** ** Text helpers of the other handlers *)
(* ===================================================================== *)

Module Text.

(** [Some rest] when [s] is [p] followed by [rest]. *)
Fixpoint drop_prefix (p s : string) : option string :=
  match p, s with
  | EmptyString, _ => Some s
  | String a p', String b s' => if Ascii.eqb a b then drop_prefix p' s' else None
  | String _ _, EmptyString => None
  end.

(** [s.replace(/^https?:\/\//, "")] *)
Definition strip_protocol (s : string) : string :=
  match drop_prefix "http" s with
  | Some r =>
      let r' := match drop_prefix "s" r with Some x => x | None => r end in
      match drop_prefix "://" r' with
      | Some rest => rest
      | None => s
      end
  | None => s
  end.

(** [s.split(",")] for a one-character separator: the empty string splits
    into one empty piece. *)
Fixpoint split_on (c : ascii) (s : string) : list string :=
  match s with
  | EmptyString => EmptyString :: nil
  | String a r =>
      if Ascii.eqb a c then EmptyString :: split_on c r
      else match split_on c r with
           | h :: t => String a h :: t
           | nil => String a EmptyString :: nil
           end
  end.

Definition string_of_bytes (bs : list Z) : string :=
  string_of_list_ascii (List.map (fun b => ascii_of_N (Z.to_N b)) bs).

(** White space at the end: everything from the first position after which
    only white space follows. *)
Fixpoint strip_ws_end (bs : list Z) : list Z :=
  match bs with
  | nil => nil
  | b :: r =>
      match strip_ws bs with
      | nil => nil
      | _ :: _ => b :: strip_ws_end r
      end
  end.

(** [s.trim()] *)
Definition trim (s : string) : string :=
  string_of_bytes (strip_ws_end (strip_ws (Bytes.of_string s))).

(** [v || d] for an environment variable or a header: unset and empty are
    both falsy. *)
Definition or_default (d : string) (v : option string) : string :=
  match v with
  | Some s => if String.eqb s "" then d else s
  | None => d
  end.

Definition is_set (v : option string) : bool :=
  match v with
  | Some s => negb (String.eqb s "")
  | None => false
  end.

(** [v.toString()] of a query value. *)
Definition qval_toString (v : qval) : string :=
  match v with
  | QStr s => s
  | QArr l => Array_join "," l
  end.

(** Truthiness of [req.query.k]: an absent parameter and the empty string
    are falsy, an array is truthy. *)
Definition query_truthy (v : option qval) : bool :=
  match v with
  | None => false
  | Some (QStr s) => negb (String.eqb s "")
  | Some (QArr _) => true
  end.

End Text.

(* ===================================================================== *)
(** ** Installation: [GET /auth] and [GET /auth/callback] *)
(* ===================================================================== *)

Module OAuth.

Import Text.

(** [process.env] *)
Record config := Config {
  SHOPIFY_API_KEY : option string;
  SHOPIFY_API_SECRET : option string;
  APP_URL : option string;
  VERCEL_URL : option string;
  SCOPES : option string
}.

(** What [shopifyApi({...})] is given. *)
Record sdk_config := SdkConfig {
  hostName : string;
  scopes : list string
}.

(** What the OAuth callback of the platform SDK resolves to. *)
Record session := Session {
  shop : string;
  accessToken : option string;
  scope : option string
}.

(** The platform SDK and the clock and error texts of the database, all
    outside the repository: [oauth_begin cfg shop] is the authorization
    URL or an exception, [oauth_callback cfg query] the session the code
    exchange yields or an exception. *)
Record platform := Platform {
  oauth_begin : sdk_config -> string -> result string;
  oauth_callback : sdk_config -> obj qval -> result session;
  now : Z;
  sql_exn : Store.sql_error -> exn
}.

Inductive reply :=
| Redirect (location : string)            (* res.redirect(location) *)
| Send (status : Z) (text : string).      (* res.status(status).send(text) *)

Inductive step :=
| EnsureTables
| SdkBegin (cfg : sdk_config) (shop : string)
| SdkCallback (cfg : sdk_config)
| Upsert (shop : string) (token sc : option string).

Definition default_scopes : string :=
  "read_products,read_customers,write_draft_orders".

(** [await pool.query("insert into shop_sessions ... on conflict ...",
    [shop, accessToken, scope])] on the store [db]. *)
Definition query_upsert (p : platform) (s : session) (db : result Store.table)
  : result Store.table :=
  JS.bind db (fun t =>
    match Store.bind_upsert (now p) (Some (shop s)) (accessToken s) (scope s) t with
    | Store.Done t' => Ok t'
    | Store.Failed e => Throw (sql_exn p e)
    end).

Definition admin_apps (s : session) : string :=
  "https://" +:+ shop s +:+ "/admin/apps".

(** *** The variant with the HMAC check: the SDK is set up once when the
    module loads. *)

Definition shopify_v1 (c : config) : sdk_config :=
  SdkConfig (strip_protocol (or_default "example.com" (APP_URL c)))
            ["read_products"; "read_customers"; "write_draft_orders"]%string.

(** [app.get("/auth")]: there is no [catch]; an exception of the SDK leaves
    the handler. *)
Definition auth_v1 (c : config) (p : platform) (query : obj qval)
  : list step * result reply :=
  match get "shop" query with
  | Some v =>
      if query_truthy (Some v)
      then (SdkBegin (shopify_v1 c) (qval_toString v) :: nil,
            JS.bind (oauth_begin p (shopify_v1 c) (qval_toString v))
                    (fun authRoute => Ok (Redirect authRoute)))
      else (nil, Ok (Send 400 "Missing shop"))
  | None => (nil, Ok (Send 400 "Missing shop"))
  end.

(** [app.get("/auth/callback")]: the reply and the store afterwards. *)
Definition callback_v1 (c : config) (p : platform) (db : result Store.table)
    (query : obj qval) : list step * reply * result Store.table :=
  match oauth_callback p (shopify_v1 c) query with
  | Throw _ => (SdkCallback (shopify_v1 c) :: nil, Send 500 "Auth error", db)
  | Ok s =>
      let tr := [SdkCallback (shopify_v1 c); Upsert (shop s) (accessToken s) (scope s)] in
      match query_upsert p s db with
      | Ok db' => (tr, Redirect (admin_apps s), Ok db')
      | Throw _ => (tr, Send 500 "Auth error", db)
      end
  end.

(** *** [server.js]: the SDK and the pool are set up on first use. *)

(** [getShopify()] *)
Definition getShopify (c : config) : result sdk_config :=
  if is_set (SHOPIFY_API_KEY c) && is_set (SHOPIFY_API_SECRET c)
  then Ok (SdkConfig
             (strip_protocol
                (or_default (or_default "cod-app-omega.vercel.app" (VERCEL_URL c))
                            (APP_URL c)))
             (split_on "," (or_default default_scopes (SCOPES c))))
  else Throw (Exn "Error" "Missing SHOPIFY creds").

Definition auth (c : config) (p : platform) (query : obj qval) : list step * reply :=
  let failed e := Send 500 ("Auth start error: " +:+ message e) in
  match get "shop" query with
  | Some v =>
      if query_truthy (Some v) then
        match getShopify c with
        | Throw e => (nil, failed e)
        | Ok cfg =>
            (SdkBegin cfg (qval_toString v) :: nil,
             match oauth_begin p cfg (qval_toString v) with
             | Ok url => Redirect url
             | Throw e => failed e
             end)
        end
      else (nil, Send 400 "Missing shop")
  | None => (nil, Send 400 "Missing shop")
  end.

Definition callback (c : config) (p : platform) (w : world) (query : obj qval)
  : list step * reply * result Store.table :=
  let failed e := Send 500 ("Auth callback error: " +:+ message e) in
  let ensured := if DATABASE_URL_set w then EnsureTables :: nil else nil in
  match getShopify c with
  | Throw e => (ensured, failed e, database w)
  | Ok cfg =>
      match oauth_callback p cfg query with
      | Throw e => (ensured ++ [SdkCallback cfg], failed e, database w)
      | Ok s =>
          if DATABASE_URL_set w then
            let tr := ensured ++ [SdkCallback cfg;
                                  Upsert (shop s) (accessToken s) (scope s)] in
            match query_upsert p s (database w) with
            | Ok db' => (tr, Redirect (admin_apps s), Ok db')
            | Throw e => (tr, failed e, database w)
            end
          else (ensured ++ [SdkCallback cfg], Redirect (admin_apps s), database w)
      end
  end.

(** The world a later request sees: the store as the callback left it. *)
Definition after (w : world) (db : result Store.table) : world :=
  World (DATABASE_URL_set w) db (downstream w).

End OAuth.

(* ===================================================================== *)
(** ** The variant that sets up the SDK per request (forwarded host) *)
(* ===================================================================== *)

Module Forwarded.

Import Text OAuth.

(** [getHostFromReq(req)], from the request headers and the environment. *)
Definition getHostFromReq (c : config) (headers : obj string) : string :=
  let xfHost := get "x-forwarded-host" headers in
  let xfProto := or_default "https" (get "x-forwarded-proto" headers) in
  let baseFromEnv :=
    if is_set (APP_URL c) then or_default "" (APP_URL c)
    else if is_set (VERCEL_URL c) then "https://" +:+ or_default "" (VERCEL_URL c)
    else "" in
  let url := if is_set xfHost then xfProto +:+ "://" +:+ or_default "" xfHost
             else baseFromEnv in
  strip_protocol url.

(** [makeShopify(hostName)] *)
Definition makeShopify (c : config) (host : string) : result sdk_config :=
  if is_set (SHOPIFY_API_KEY c) && is_set (SHOPIFY_API_SECRET c)
  then Ok (SdkConfig host
             (List.filter (fun s => negb (String.eqb s ""))
                (List.map trim (split_on "," (or_default default_scopes (SCOPES c))))))
  else Throw (Exn "Error" "Missing SHOPIFY_API_KEY / SHOPIFY_API_SECRET").

(** [app.get("/auth")] *)
Definition auth (c : config) (p : platform) (query : obj qval) (headers : obj string)
  : list step * reply :=
  let failed e := Send 500 ("Auth start error: " +:+ or_default "Unknown" (Some (message e))) in
  let shop := trim (match get "shop" query with
                    | Some v => if query_truthy (Some v) then qval_toString v else EmptyString
                    | None => EmptyString
                    end) in
  if String.eqb shop "" then (nil, Send 400 "Missing shop") else
  match makeShopify c (getHostFromReq c headers) with
  | Throw e => (nil, failed e)
  | Ok cfg =>
      (SdkBegin cfg shop :: nil,
       match oauth_begin p cfg shop with
       | Ok url => Redirect url
       | Throw e => failed e
       end)
  end.

(** [(req.query.shop || req.body.shop || "").toString().trim()] *)
Definition resolve_shop (req : request) : result string :=
  JS.bind (Server.resolve_shop req) (fun shop => Ok (trim shop)).

(** [app.post("/proxy/cod")]: the relay of [server.js] on the trimmed
    shop. *)
Definition handler (w : world) (req : request) : io response :=
  _ ← Server.ensureTablesSafe w;
  shop ← lift (resolve_shop req);
  if String.eqb shop "" then mret (error_response 400 "Missing shop") else
  if negb (DATABASE_URL_set w) then mret (error_response 500 "DB not configured") else
  rows ← pool_query_select w (Some shop);
  match rows with
  | nil => mret (error_response 401 "Shop not installed")
  | accessToken :: _ =>
      '(code, data) ← Server.fetch_rest w (Server.rest_request shop accessToken);
      if negb (Server.ok_status code) then mret (Server.relayed code false data)
      else mret (Server.relayed 200 true data)
  end.

Definition proxy_cod (w : world) (req : request) : list event * response :=
  match handler w req with
  | (tr, Ok r) => (tr, r)
  | (tr, Throw e) => (tr, Server.failure e)
  end.

End Forwarded.

(* ===================================================================== *)
(** ** The variant that reads the shop from the request body only *)
(* ===================================================================== *)

Module BodyShop.

(** The driver's text for a parameter taken from a JSON body; [compound]
    is its text for an array or an object, outside the repository. *)
Definition pg_value (compound : json -> string) (v : value) : option string :=
  match v with
  | None | Some JNull => None
  | Some (JStr s) => Some s
  | Some (JNum n) => Some (toString (JNum n))
  | Some (JFrac text) => Some text
  | Some (JBool b) => Some (toString (JBool b))
  | Some x => Some (compound x)
  end.

Inductive reply :=
| SendText (status : Z) (text : string)   (* res.status(status).send(text) *)
| SendJson (status : Z) (data : json).    (* res.status(status).json(data) *)

Definition draftOrder : json :=
  JObj [("draft_order",
         JObj [("line_items",
                JArr [JObj [("title", JStr "Cash on Delivery");
                            ("price", JStr "0.00")]]);
               ("note", JStr "COD Order")])]%string.

Definition handler (compound : json -> string) (w : world) (req : request) : io reply :=
  shop ← lift (prop (body req) "shop");
  rows ← pool_query_select w (pg_value compound shop);
  match rows with
  | nil => mret (SendText 401 "Shop not found")
  | accessToken :: _ =>
      '(_, data) ← Server.fetch_rest w
        (FetchRequest
           ("https://" +:+ Gated.String_of shop +:+ "/admin/api/2024-04/draft_orders.json")
           accessToken draftOrder);
      mret (SendJson 200 data)
  end.

Definition proxy_cod (compound : json -> string) (w : world) (req : request)
  : list event * reply :=
  match handler compound w req with
  | (tr, Ok r) => (tr, r)
  | (tr, Throw _) => (tr, SendText 500 "Error creating draft order")
  end.

End BodyShop.

(* ===================================================================== *)
(** ** Further predicates *)
(* ===================================================================== *)

(** A repeated parameter replaced by the one string its values join to;
    the signature field is left as it is. *)
Definition joined (q : obj qval) : obj qval :=
  List.map (fun p => (fst p,
                      if String.eqb (fst p) "hmac" then snd p
                      else QStr (Text.qval_toString (snd p)))) q.

(** The relay with the HMAC check gets as far as the downstream call: the signature
    verifies, the store has a row for the shop and the body yields a draft
    order input. *)
Definition reaches_downstream (rt : runtime) (secret : string) (w : world)
    (req : request) (key : string) (r : Store.row) (input : json) : Prop :=
  Verifier.verifyProxyHmac rt (query req) secret = Ok true /\
  (exists t, database w = Ok t /\ t !! key = Some r) /\
  Gated.pg_param rt (get "shop" (query req)) = Some key /\
  JS.bind (Gated.destructure (body req)) Gated.draftInput = Ok input.

Definition server_error : response := error_response 500 "Server error".

(** What the handler answers once the downstream call has returned. *)
Definition relayed_answer (parsed : result json) : response :=
  match JS.bind parsed Gated.relay_result with
  | Ok r => r
  | Throw _ => server_error
  end.

(** The relay of [server.js] gets as far as the downstream call: a pool is
    configured, the request names a shop and the store has a row for it. *)
Definition server_reaches (w : world) (req : request) (shop : string)
    (r : Store.row) : Prop :=
  DATABASE_URL_set w = true /\
  Server.resolve_shop req = Ok shop /\ shop <> EmptyString /\
  exists t, database w = Ok t /\ t !! shop = Some r.

(** The integer a decimal numeral denotes when read after the digits that
    gave [acc]. *)
Fixpoint numeral_value (d : Decimal.uint) (acc : Z) : Z :=
  match d with
  | Decimal.Nil => acc
  | Decimal.D0 l => numeral_value l (10 * acc + 0)
  | Decimal.D1 l => numeral_value l (10 * acc + 1)
  | Decimal.D2 l => numeral_value l (10 * acc + 2)
  | Decimal.D3 l => numeral_value l (10 * acc + 3)
  | Decimal.D4 l => numeral_value l (10 * acc + 4)
  | Decimal.D5 l => numeral_value l (10 * acc + 5)
  | Decimal.D6 l => numeral_value l (10 * acc + 6)
  | Decimal.D7 l => numeral_value l (10 * acc + 7)
  | Decimal.D8 l => numeral_value l (10 * acc + 8)
  | Decimal.D9 l => numeral_value l (10 * acc + 9)
  end.

(* ===================================================================== *)
(** ** More sample data *)
(* ===================================================================== *)

Module Sample.

Import OAuth.

Definition creds : config :=
  Config (Some "key") (Some "hush") (Some "https://app.example") None None.

(** What [getShopify] makes of [creds]. *)
Definition configured : sdk_config :=
  SdkConfig "app.example" ["read_products"; "read_customers"; "write_draft_orders"]%string.

Definition installing : session :=
  Session "demo.example" (Some "shpat_9") (Some "write_draft_orders").

(** An SDK that grants every installation to [installing]. *)
Definition sdk : platform :=
  Platform (fun cfg shop => Ok ("https://" +:+ shop +:+ "/admin/oauth/authorize"))
           (fun _ _ => Ok installing)
           1700000900
           (fun _ => Exn "error" "violates a constraint").

(** An SDK whose every call fails. *)
Definition broken_sdk : platform :=
  Platform (fun _ _ => Throw (Exn "Error" "network down"))
           (fun _ _ => Throw (Exn "InvalidOAuthError" "bad code"))
           1700000900
           (fun _ => Exn "error" "violates a constraint").

(** An SDK whose session carries no access token. *)
Definition tokenless_sdk : platform :=
  Platform (fun cfg shop => Ok ("https://" +:+ shop +:+ "/admin/oauth/authorize"))
           (fun _ _ => Ok (Session "demo.example" None None))
           1700000900
           (fun _ => Exn "error" "violates a constraint").

Definition forwarded : obj string :=
  [("x-forwarded-host", "cod.example"); ("x-forwarded-proto", "https")]%string.

Definition install_query : obj qval :=
  [("shop", QStr "demo.example"); ("code", QStr "c0de")]%string.



Definition unprocessable : world :=
  World true (Ok Demo.installed)
        (fun _ => Responded 422 (Ok (JObj [("errors", JStr "invalid")]%string))).

Definition refused : exn := Exn "Error" "connect ECONNREFUSED".


Definition no_database : world :=
  World false (Throw refused) (fun _ => Rejected refused).

Definition empty_slate : world :=
  World true (Ok ∅) (fun _ => Responded 201 (Ok (JObj nil))).

(** The digest of the demo parameters in capitals. *)
Definition shouted : obj qval :=
  put "hmac"
    (QStr "8F04F60732DDB1B833E5F074DDC152C40B1641F6417234F16E391FC5EF8D4E7F")
    Demo.params.

Definition bad_items_request : request :=
  Request Demo.signed (Some (JObj [("lineItems", JStr "two of each")]%string)).

Definition body_request : request :=
  Request nil (Some (JObj [("shop", JStr "demo.example")]%string)).

Definition query_request (b : value) : request :=
  Request [("shop", QStr "demo.example")]%string b.

Definition anonymous_request : request :=
  Request nil (Some (JObj [("note", JStr "ring twice")]%string)).

Definition compound (_ : json) : string := EmptyString.

(** Two keys outside ASCII: U+FF5E (bytes EF BD 9E, one code unit FF5E)
    and U+1F600 (bytes F0 9F 98 80, the surrogates D83D DE00). *)
Definition tilde : string := Text.string_of_bytes [0xEF; 0xBD; 0x9E].
Definition grin : string := Text.string_of_bytes [0xF0; 0x9F; 0x98; 0x80].

Definition astral : obj qval := [(tilde, QStr "1"); (grin, QStr "2")]%string.

(** The digest of the demo parameters as a repeated parameter: one
    decimal numeral per byte of the digest, and the same with the first
    numeral written with leading zeros. *)
Definition numerals : list string :=
  List.map string_of_Z (Bytes.of_string Demo.signature).

Definition padded_numerals : list string :=
  match numerals with
  | first :: more => ("0000000" +:+ first) :: more
  | nil => nil
  end.

(** [padded_numerals] with the first character of its first numeral
    replaced by [1]. *)
Definition mutated_numerals : list string :=
  match padded_numerals with
  | first :: more => mutate 0 "1" first :: more
  | nil => nil
  end.

Definition repeated : obj qval := put "hmac" (QArr padded_numerals) Demo.params.





(** The row of the demo shop. *)
Definition stored : Store.row :=
  Store.Row "shpat_1" (Some "write_draft_orders"%string) 1700000000.

(** The draft order input for the demo body: quantity 1 for the line
    item that has none, no fee. *)
Definition order_input : json :=
  JObj [("note", JStr "call before delivery");
        ("tags", JArr [JStr "COD"; JStr "COD-App"]);
        ("email", JStr "buyer@demo.example");
        ("shippingAddress", JObj [("city", JStr "Lahore")]);
        ("billingAddress", JObj [("city", JStr "Lahore")]);
        ("customer", JObj [("email", JStr "buyer@demo.example")]);
        ("lineItems",
         JArr [JObj [("variantId", JStr "gid://variant/1"); ("quantity", JNum 1)];
               JObj [("variantId", JStr "gid://variant/2"); ("quantity", JNum 3)]])]%string.

End Sample.

(* ===================================================================== *)
(** ** Test vectors *)
(* ===================================================================== *)

Example round_constants :
  nth 0 Sha256.K 0 = 0x428a2f98 /\ nth 63 Sha256.K 0 = 0xc67178f2 /\
  length Sha256.K = 64%nat /\ Sha256.sa Sha256.H0 = 0x6a09e667.
Proof. repeat split. Qed.

Example sha256_abc :
  Bytes.hex (Sha256.sha256 (Bytes.of_string "abc"))
  = "ba7816bf8f01cfea414140de5dae2223b00361a396177a9cb410ff61f20015ad"%string.
Proof. vm_compute. reflexivity. Qed.

Example sha256_empty :
  Bytes.hex (Sha256.sha256 nil)
  = "e3b0c44298fc1c149afbf4c8996fb92427ae41e4649b934ca495991b7852b855"%string.
Proof. vm_compute. reflexivity. Qed.

Example hmac_rfc4231_case2 :
  Sha256.hmac_hex "Jefe" "what do ya want for nothing?"
  = "5bdcc146bf60754e6a042426089575c75a003f089d2739839dec58b964ec3843"%string.
Proof. vm_compute. reflexivity. Qed.

Example hmac_fox :
  Sha256.hmac_hex "key" "The quick brown fox jumps over the lazy dog"
  = "f7bc83f430538424b13298e6aa6fb143ef4d59a14946175997479dbc2d1a3cd8"%string.
Proof. vm_compute. reflexivity. Qed.

Example hmac_rfc4231_case6 :
  Bytes.hex (Sha256.hmac_sha256 (repeat 0xaa 131)
    (Bytes.of_string "Test Using Larger Than Block-Size Key - Hash Key First"))
  = "60e431591ee0b67f0d8a26aacbf5b77f8e0bc6213728c5140546040f0ee37f54"%string.
Proof. vm_compute. reflexivity. Qed.

Example toString_nested :
  toString (JArr [JNum 3; JNull; JArr [JStr "a"; JBool true]; JNum (-12)]) = "3,,a,true,-12"%string.
Proof. reflexivity. Qed.

Example toString_numbers :
  toString (JNum 9007199254740991) = "9007199254740991"%string /\
  toString (JNum (2 ^ 60)) = "1152921504606847000"%string /\
  toString (JNum 999999999999999868928) = "999999999999999900000"%string /\
  toString (JNum (10 ^ 21)) = "1e+21"%string /\
  toString (JNum (2 ^ 70)) = "1.1805916207174113e+21"%string /\
  toString (JNum (- 15 * 10 ^ 21)) = "-1.5e+22"%string /\
  toString (JNum 99999999999999991611392) = "1e+23"%string /\
  toString (JNum 9007199254740993) = "9007199254740992"%string /\
  toString (JNum (- 10 ^ 400)) = "-Infinity"%string /\
  toString (JFrac "2.5") = "2.5"%string.
Proof. vm_compute. repeat split. Qed.

(** A quantity from [10 ^ 21] on is printed in exponent form and read back
    as its first digit; a quantity with a fraction loses the fraction. *)
Example parseInt_of_numbers :
  parseInt10 (toString (JNum (10 ^ 21))) = Finite 1 /\
  parseInt10 (toString (JFrac "2.5")) = Finite 2 /\
  parseInt10 (toString (JFrac "1e-7")) = Finite 1 /\
  parseInt10 (toString (JNum 3)) = Finite 3.
Proof. vm_compute. repeat split. Qed.

Example code_units_examples :
  code_units (Bytes.of_string "shop") = [115; 104; 111; 112] /\
  code_units [0xC3; 0xA9] = [0xE9] /\
  code_units [0xE2; 0x82; 0xAC] = [0x20AC] /\
  code_units [0xEF; 0xBD; 0x9E] = [0xFF5E] /\
  code_units [0xF0; 0x9F; 0x98; 0x80] = [0xD83D; 0xDE00] /\
  code_units [0xF4; 0x8F; 0xBF; 0xBF] = [0xDBFF; 0xDFFF].
Proof. vm_compute. repeat split. Qed.

(** Keys are sorted by code units: capitals before small letters, a proper
    prefix first, and a character of the supplementary planes (surrogates)
    before U+FF5E. *)
Example Array_sort_examples :
  Array_sort ["timestamp"; "shop"; "Shop"; "path_prefix"; "path"]%string
  = ["Shop"; "path"; "path_prefix"; "shop"; "timestamp"]%string /\
  Array_sort [Sample.tilde; Sample.grin; "z"%string]
  = ["z"%string; Sample.grin; Sample.tilde].
Proof. vm_compute. repeat split. Qed.

Example parseInt_examples :
  parseInt10 "1" = Finite 1 /\ parseInt10 "  42px" = Finite 42 /\
  parseInt10 "-7.5" = Finite (-7) /\ parseInt10 "abc" = NaN /\
  parseInt10 "" = NaN /\ parseInt10 "0x10" = Finite 0 /\
  parseInt10 "9007199254740993" = Finite 9007199254740992.
Proof. vm_compute. repeat split. Qed.

(* ===================================================================== *)
(** ** Facts about bytes, the key order and sorting *)
(* ===================================================================== *)

Section ByteFacts.

Lemma byte_of_ascii_inj a b :
  Bytes.byte_of_ascii a = Bytes.byte_of_ascii b -> a = b.
Proof.
  unfold Bytes.byte_of_ascii. intros H.
  apply N2Z.inj in H.
  rewrite <- (ascii_N_embedding a), <- (ascii_N_embedding b). now rewrite H.
Qed.

Lemma of_string_inj s t : Bytes.of_string s = Bytes.of_string t -> s = t.
Proof.
  revert t. induction s as [|a s IH]; intros [|b t]; simpl; try discriminate; auto.
  unfold Bytes.of_string. simpl. intros H. injection H as Hab Hst.
  apply byte_of_ascii_inj in Hab. subst b. f_equal. now apply IH.
Qed.

Lemma of_string_length s : length (Bytes.of_string s) = String.length s.
Proof.
  unfold Bytes.of_string. rewrite length_map.
  induction s; simpl; auto.
Qed.

Lemma hex_length bs : String.length (Bytes.hex bs) = (2 * length bs)%nat.
Proof. induction bs as [|b bs IH]; simpl; [reflexivity | rewrite IH; lia]. Qed.

Lemma hex_digit_lower n :
  0 <= n < 16 -> Bytes.is_lower_hex (Bytes.hex_digit n) = true.
Proof.
  intros H.
  assert (Hall : forallb (fun k => Bytes.is_lower_hex (Bytes.hex_digit (Z.of_nat k)))
                         (seq 0 16) = true) by reflexivity.
  rewrite forallb_forall in Hall.
  rewrite <- (Z2Nat.id n) by lia. apply Hall. apply in_seq. lia.
Qed.

Lemma hex_lower bs :
  forallb Bytes.is_lower_hex (list_ascii_of_string (Bytes.hex bs)) = true.
Proof.
  induction bs as [|b bs IH]; [reflexivity|].
  cbn [Bytes.hex list_ascii_of_string forallb].
  rewrite IH, !hex_digit_lower; [reflexivity | |].
  - apply Z.mod_pos_bound. lia.
  - split; [apply Z.div_pos; [apply Z.mod_pos_bound|]; lia|].
    apply Z.div_lt_upper_bound; [lia|]. apply Z.mod_pos_bound. lia.
Qed.

Lemma be_bytes_length n x : length (Sha256.be_bytes n x) = n.
Proof. unfold Sha256.be_bytes. now rewrite length_map, length_rev, length_seq. Qed.

Lemma sha256_length msg : length (Sha256.sha256 msg) = 32%nat.
Proof.
  unfold Sha256.sha256, Sha256.state_bytes.
  repeat rewrite length_app. repeat rewrite be_bytes_length. reflexivity.
Qed.

Lemma hmac_hex_length secret msg :
  String.length (Sha256.hmac_hex secret msg) = 64%nat.
Proof.
  unfold Sha256.hmac_hex, Sha256.hmac_sha256.
  rewrite hex_length, sha256_length. reflexivity.
Qed.

End ByteFacts.

Section KeyOrder.

Import Spec.

Lemma byte_le_refl a : byte_le a a = true.
Proof.
  induction a as [|x a IH]; simpl; auto.
  rewrite Z.eqb_refl, IH. now rewrite orb_true_r.
Qed.

Lemma byte_le_total a b : byte_le a b = true \/ byte_le b a = true.
Proof.
  revert b. induction a as [|x a IH]; intros [|y b]; simpl; auto.
  destruct (Z.ltb_spec x y), (Z.ltb_spec y x); simpl; auto; try lia.
  assert (x = y) by lia. subst y. rewrite Z.eqb_refl. simpl. apply IH.
Qed.

Lemma byte_le_trans a b c :
  byte_le a b = true -> byte_le b c = true -> byte_le a c = true.
Proof.
  revert b c. induction a as [|x a IH]; intros [|y b] [|z c]; simpl; auto;
    try discriminate.
  intros H1 H2.
  apply orb_true_iff in H1. apply orb_true_iff in H2. apply orb_true_iff.
  destruct H1 as [H1 | H1]; destruct H2 as [H2 | H2];
    rewrite ?andb_true_iff, ?Z.ltb_lt, ?Z.eqb_eq in *.
  - left. lia.
  - left. destruct H2. lia.
  - left. destruct H1. lia.
  - right. destruct H1, H2. split; [lia | eauto].
Qed.

Lemma byte_le_antisym a b :
  byte_le a b = true -> byte_le b a = true -> a = b.
Proof.
  revert b. induction a as [|x a IH]; intros [|y b]; simpl; auto;
    try discriminate.
  intros H1 H2.
  apply orb_true_iff in H1. apply orb_true_iff in H2.
  rewrite ?andb_true_iff, ?Z.ltb_lt, ?Z.eqb_eq in *.
  destruct H1 as [H1 | [H1 H1']]; destruct H2 as [H2 | [H2 H2']]; try lia.
  subst y. f_equal. auto.
Qed.

#[global] Instance key_order_total : Total key_order.
Proof. intros j k. apply byte_le_total. Qed.

#[global] Instance key_order_trans : Transitive key_order.
Proof. intros j k l. apply byte_le_trans. Qed.

#[global] Instance key_order_antisym : AntiSymm (=) key_order.
Proof. intros j k H1 H2. apply of_string_inj. now apply byte_le_antisym. Qed.

(** [String.compare] is the byte order. *)
Lemma compare_key_le x y :
  key_le x y = match String.compare x y with Gt => false | _ => true end.
Proof.
  unfold key_le, Bytes.of_string.
  revert y. induction x as [|a x IH]; intros [|b y]; simpl; auto.
  unfold Ascii.compare, Bytes.byte_of_ascii.
  rewrite <- N2Z.inj_compare.
  destruct (Z.compare_spec (Z.of_N (N_of_ascii a)) (Z.of_N (N_of_ascii b))) as [E|L|G].
  - rewrite E, Z.ltb_irrefl, Z.eqb_refl. simpl. apply IH.
  - apply Z.ltb_lt in L. now rewrite L.
  - assert ((Z.of_N (N_of_ascii a) <? Z.of_N (N_of_ascii b)) = false) as -> by lia.
    assert ((Z.of_N (N_of_ascii a) =? Z.of_N (N_of_ascii b)) = false) as -> by lia.
    reflexivity.
Qed.

Lemma ltb_key_le x y : String.ltb x y = negb (key_le y x).
Proof.
  rewrite compare_key_le. unfold String.ltb.
  rewrite (String.compare_antisym x y).
  destruct (String.compare y x); reflexivity.
Qed.

Lemma byte_le_compare a b :
  byte_le a b = match list_compare Z.compare a b with Gt => false | _ => true end.
Proof.
  revert b. induction a as [|x a IH]; intros [|y b]; simpl; auto.
  destruct (Z.compare_spec x y) as [E|L|G].
  - subst y. rewrite Z.ltb_irrefl, Z.eqb_refl. simpl. apply IH.
  - apply Z.ltb_lt in L. now rewrite L.
  - assert ((x <? y) = false) as -> by lia.
    assert ((x =? y) = false) as -> by lia. reflexivity.
Qed.

End KeyOrder.

Section UnitOrder.

Import Spec.

Lemma units_eq a b : list_compare Z.compare a b = Eq <-> a = b.
Proof. apply list_compare_refl, Z.compare_eq_iff. Qed.

Lemma units_antisym a b :
  list_compare Z.compare b a = CompOpp (list_compare Z.compare a b).
Proof.
  apply list_compare_antisym; [apply Z.compare_eq_iff|].
  intros x y. apply Z.compare_antisym.
Qed.

Lemma units_lt_trans a b c :
  list_compare Z.compare a b = Lt -> list_compare Z.compare b c = Lt ->
  list_compare Z.compare a c = Lt.
Proof.
  apply list_compare_trans; [apply Z.compare_eq_iff | | intros; apply Z.compare_antisym].
  intros x y z k H1 H2.
  destruct (Z.compare_spec x y); subst k;
    destruct (Z.compare_spec y z); try discriminate;
    [apply Z.compare_eq_iff | apply Z.compare_lt_iff | apply Z.compare_gt_iff]; lia.
Qed.

(** The comparison of [Array.prototype.sort] is the order of the code
    units. *)
Lemma String_lt_units_le x y : String_lt x y = negb (units_le y x).
Proof.
  unfold String_lt, units_le.
  rewrite (units_antisym (code_units (Bytes.of_string x)) (code_units (Bytes.of_string y))).
  destruct (list_compare Z.compare _ _); simpl; try reflexivity.
  apply ltb_key_le.
Qed.

#[global] Instance unit_order_total : Total unit_order.
Proof.
  intros j k. unfold unit_order, units_le.
  rewrite (units_antisym (code_units (Bytes.of_string j)) (code_units (Bytes.of_string k))).
  destruct (list_compare Z.compare _ _); simpl; auto.
  apply byte_le_total.
Qed.

#[global] Instance unit_order_trans : Transitive unit_order.
Proof.
  intros j k l. unfold unit_order, units_le.
  destruct (list_compare Z.compare (code_units (Bytes.of_string j)) _) eqn:E1;
    try discriminate;
    destruct (list_compare Z.compare (code_units (Bytes.of_string k)) _) eqn:E2;
    try discriminate; intros H1 H2.
  - apply units_eq in E1, E2. rewrite E1, E2.
    rewrite (proj2 (units_eq _ _) eq_refl). revert H1 H2. apply byte_le_trans.
  - apply units_eq in E1. rewrite E1, E2. reflexivity.
  - apply units_eq in E2. rewrite <- E2, E1. reflexivity.
  - now rewrite (units_lt_trans _ _ _ E1 E2).
Qed.

#[global] Instance unit_order_antisym : AntiSymm (=) unit_order.
Proof.
  intros j k. unfold unit_order, units_le.
  rewrite (units_antisym (code_units (Bytes.of_string j)) (code_units (Bytes.of_string k))).
  destruct (list_compare Z.compare _ _); simpl; try discriminate.
  intros H1 H2. apply of_string_inj. now apply byte_le_antisym.
Qed.

Lemma code_units_ascii bs :
  forallb (fun b => b <? 128) bs = true -> code_units bs = bs.
Proof.
  induction bs as [|b bs IH]; simpl; [reflexivity|].
  intros H. apply andb_true_iff in H as [Hb Hbs].
  apply Z.ltb_lt in Hb.
  assert ((b <? 192) = true) as -> by lia. now rewrite IH.
Qed.

(** On ASCII keys the order of the code units is the byte order. *)
Lemma units_le_ascii j k : ascii_key j -> ascii_key k -> units_le j k = key_le j k.
Proof.
  unfold ascii_key, units_le, key_le. intros Hj Hk.
  rewrite (code_units_ascii _ Hj), (code_units_ascii _ Hk), byte_le_compare.
  destruct (list_compare Z.compare _ _); reflexivity.
Qed.

End UnitOrder.

Section Sorting.

Import Spec.

Lemma sort_insert_perm x l : sort_insert x l ≡ₚ x :: l.
Proof.
  induction l as [|y l IH]; simpl; [reflexivity|].
  destruct (String_lt x y); [reflexivity|].
  rewrite IH. apply perm_swap.
Qed.

Lemma fold_sort_insert_perm l acc :
  fold_left (fun a x => sort_insert x a) l acc ≡ₚ l ++ acc.
Proof.
  revert acc. induction l as [|x l IH]; intros acc; simpl; [reflexivity|].
  rewrite IH, sort_insert_perm. symmetry. apply Permutation_middle.
Qed.

Lemma Array_sort_perm l : Array_sort l ≡ₚ l.
Proof.
  unfold Array_sort. rewrite fold_sort_insert_perm. now rewrite app_nil_r.
Qed.

Lemma sort_insert_hd x y l :
  unit_order y x -> HdRel unit_order y l -> HdRel unit_order y (sort_insert x l).
Proof.
  intros Hyx Hl. destruct l as [|z l]; simpl; [now constructor|].
  destruct (String_lt x z); constructor; auto.
  now inversion Hl.
Qed.

Lemma sort_insert_sorted x l :
  Sorted unit_order l -> Sorted unit_order (sort_insert x l).
Proof.
  induction 1 as [|y l Hs IH Hhd]; simpl.
  - repeat constructor.
  - destruct (String_lt x y) eqn:E.
    + constructor; [now constructor|]. constructor.
      rewrite String_lt_units_le in E. apply negb_true_iff in E.
      destruct (unit_order_total x y) as [H|H]; [exact H|].
      unfold unit_order in H. congruence.
    + constructor; [exact IH|].
      apply sort_insert_hd; [|exact Hhd].
      rewrite String_lt_units_le in E. apply negb_false_iff in E. exact E.
Qed.

Lemma fold_sort_insert_sorted l acc :
  Sorted unit_order acc ->
  Sorted unit_order (fold_left (fun a x => sort_insert x a) l acc).
Proof.
  revert acc. induction l as [|x l IH]; intros acc H; simpl; [exact H|].
  apply IH. now apply sort_insert_sorted.
Qed.

Lemma Array_sort_sorted l : Sorted unit_order (Array_sort l).
Proof. apply fold_sort_insert_sorted. constructor. Qed.

(** Sorting does not depend on the order of the input. *)
Lemma Array_sort_permutation l l' : l ≡ₚ l' -> Array_sort l = Array_sort l'.
Proof.
  intros H.
  apply (Sorted_unique unit_order); try apply Array_sort_sorted.
  now rewrite !Array_sort_perm.
Qed.

Lemma Array_sort_is_sort_keys16 l : Array_sort l = sort_keys16 l.
Proof.
  apply (Sorted_unique unit_order).
  - apply Array_sort_sorted.
  - apply Sorted_merge_sort. apply _.
  - unfold sort_keys16. now rewrite Array_sort_perm, merge_sort_Permutation.
Qed.

Lemma Sorted_ascii l :
  Forall ascii_key l -> Sorted unit_order l -> Sorted key_order l.
Proof.
  intros Ha Hs. induction Hs as [|x l Hs IH Hhd]; [constructor|].
  apply Forall_cons in Ha as [Hx Hl].
  constructor; [now apply IH|].
  destruct Hhd as [|y l Hxy]; constructor.
  apply Forall_cons in Hl as [Hy _].
  unfold key_order. rewrite <- (units_le_ascii x y Hx Hy). exact Hxy.
Qed.

(** ASCII keys are sorted as the byte order sorts them. *)
Lemma Array_sort_ascii l : Forall ascii_key l -> Array_sort l = sort_keys l.
Proof.
  intros Ha. apply (Sorted_unique key_order).
  - apply Sorted_ascii; [|apply Array_sort_sorted].
    now rewrite Array_sort_perm.
  - apply Sorted_merge_sort. apply _.
  - unfold sort_keys. now rewrite Array_sort_perm, merge_sort_Permutation.
Qed.

End Sorting.

Section ObjectFacts.

Context {V : Type}.
Implicit Types (o : obj V) (k : string).

Lemma get_In k o v : get k o = Some v -> In (k, v) o.
Proof.
  induction o as [|[k' v'] o IH]; simpl; [discriminate|].
  destruct (String.eqb_spec k' k) as [->|Hne].
  - intros [= ->]. now left.
  - intros H. right. auto.
Qed.

Lemma get_is_Some k o : In k (Object_keys o) -> is_Some (get k o).
Proof.
  induction o as [|[k' v'] o IH]; simpl; [tauto|].
  destruct (String.eqb_spec k' k) as [->|Hne]; [eauto|].
  intros [H|H]; [contradiction | auto].
Qed.

Lemma get_omit_eq k o : get k (omit k o) = None.
Proof.
  induction o as [|[k' v'] o IH]; simpl; [reflexivity|].
  destruct (String.eqb_spec k' k) as [->|Hne]; simpl; [exact IH|].
  destruct (String.eqb_spec k' k); [contradiction | exact IH].
Qed.

Lemma get_put_eq k v o : get k (put k v o) = Some v.
Proof.
  induction o as [|[k' v'] o IH]; simpl.
  - now rewrite String.eqb_refl.
  - destruct (String.eqb_spec k' k) as [->|Hne]; simpl.
    + now rewrite String.eqb_refl.
    + destruct (String.eqb_spec k' k); [contradiction | exact IH].
Qed.

Lemma get_put_ne k k' v o : k <> k' -> get k' (put k v o) = get k' o.
Proof.
  intros Hne. induction o as [|[j w] o IH]; simpl.
  - destruct (String.eqb_spec k k'); [contradiction | reflexivity].
  - destruct (String.eqb_spec j k) as [->|Hjk]; simpl.
    + destruct (String.eqb_spec k k'); [contradiction | reflexivity].
    + destruct (String.eqb_spec j k'); [reflexivity | exact IH].
Qed.

Lemma omit_put k v o : omit k (put k v o) = omit k o.
Proof.
  induction o as [|[k' v'] o IH]; simpl.
  - now rewrite String.eqb_refl.
  - destruct (String.eqb_spec k' k) as [->|Hne]; simpl.
    + now rewrite String.eqb_refl.
    + destruct (String.eqb_spec k' k); [contradiction|]. simpl. now rewrite IH.
Qed.

Lemma omit_perm k o o' : o ≡ₚ o' -> omit k o ≡ₚ omit k o'.
Proof.
  intros H. unfold omit.
  induction H; simpl; repeat case_match; eauto using Permutation.
Qed.

Lemma omit_NoDup k o : NoDup (Object_keys o) -> NoDup (Object_keys (omit k o)).
Proof.
  unfold Object_keys, omit.
  induction o as [|[k' v'] o IH]; simpl; [auto|].
  intros H. apply NoDup_cons in H as [Hn Hd].
  destruct (negb (String.eqb k' k)); simpl; auto.
  apply NoDup_cons. split; auto.
  intros Hin. apply Hn.
  apply list_elem_of_fmap in Hin as [[j w] [-> Hin]].
  apply list_elem_of_fmap. exists (j, w). split; auto.
  apply list_elem_of_In, filter_In in Hin. apply list_elem_of_In. tauto.
Qed.

(** On an object, reading a key does not depend on enumeration order. *)
Lemma get_perm k o o' :
  NoDup (Object_keys o) -> o ≡ₚ o' -> get k o = get k o'.
Proof.
  intros Hnd Hp.
  assert (Hnd' : NoDup (Object_keys o')).
  { unfold Object_keys in *. now rewrite <- Hp. }
  assert (Hone : forall o1 v, NoDup (Object_keys o1) -> In (k, v) o1 -> get k o1 = Some v).
  { clear. induction o1 as [|[j w] o1 IH]; simpl; [tauto|].
    intros v Hnd Hin. apply NoDup_cons in Hnd as [Hn Hd].
    destruct (String.eqb_spec j k) as [->|Hne].
    - destruct Hin as [[= ->]|Hin]; [reflexivity|].
      exfalso. apply Hn. apply list_elem_of_In.
      change k with (fst (k, v)). now apply in_map.
    - destruct Hin as [[= -> ->]|Hin]; [contradiction | auto]. }
  destruct (get k o) as [v|] eqn:E.
  - symmetry. apply Hone; auto.
    apply get_In in E. apply list_elem_of_In. rewrite <- Hp.
    now apply list_elem_of_In.
  - destruct (get k o') as [v|] eqn:E'; [|reflexivity].
    apply get_In in E'. apply list_elem_of_In in E'. rewrite <- Hp in E'.
    apply list_elem_of_In in E'. apply Hone in E'; auto. congruence.
Qed.

End ObjectFacts.

(* ===================================================================== *)
(** ** The signature verifier *)
(* ===================================================================== *)

Section VerifierFacts.

Import Verifier.
Variable rt : runtime.

Lemma timingSafeEqual_strings s t :
  try_catch (timingSafeEqual (Bytes.of_string s) (Bytes.of_string t))
            (fun _ => Ok false)
  = Ok (String.eqb t s).
Proof.
  unfold timingSafeEqual. rewrite !of_string_length.
  destruct (String.eqb_spec t s) as [->|Hne].
  - rewrite Nat.eqb_refl. simpl. now rewrite bool_decide_eq_true_2.
  - destruct (Nat.eqb _ _); simpl; [|reflexivity].
    rewrite bool_decide_eq_false_2; [reflexivity|].
    intros H. apply of_string_inj in H. congruence.
Qed.

Lemma verify_absent q secret :
  get "hmac" q = None -> verifyProxyHmac rt q secret = Ok false.
Proof. unfold verifyProxyHmac. now intros ->. Qed.

Lemma verify_text q secret s :
  get "hmac" q = Some (QStr s) ->
  verifyProxyHmac rt q secret
  = Ok (String.eqb s (Sha256.hmac_hex secret (message q))).
Proof.
  unfold verifyProxyHmac. intros ->. simpl bind.
  apply timingSafeEqual_strings.
Qed.

Lemma verify_returns q secret :
  exists b, verifyProxyHmac rt q secret = Ok b.
Proof.
  unfold verifyProxyHmac.
  destruct (get "hmac" q) as [[s|l]|]; simpl; eauto.
  - rewrite timingSafeEqual_strings. eauto.
  - unfold timingSafeEqual. destruct (Nat.eqb _ _); simpl; eauto.
Qed.

Lemma get_rendered k (o : obj qval) :
  get k (List.map (fun p => (fst p, Spec.render_value (snd p))) o)
  = Spec.render_value <$> get k o.
Proof.
  induction o as [|[j v] o IH]; simpl; [reflexivity|].
  destruct (String.eqb j k); [reflexivity | exact IH].
Qed.

(** The message the code signs: the rendered pairs in the order
    [Array_sort] gives the keys. *)
Lemma message_rendered q :
  message q
  = String.concat "&"
      (List.map (fun k => k +:+ "=" +:+ Spec.value_of k (Spec.rendered q))
                (Array_sort (List.map fst (Spec.rendered q)))).
Proof.
  unfold message, Spec.rendered, Array_join.
  change (Spec.remaining q) with (omit "hmac" q).
  set (rest := omit "hmac" q).
  rewrite map_map. simpl.
  change (List.map (fun x : string * qval => fst x) rest) with (Object_keys rest).
  f_equal. apply map_ext_in. intros k Hk.
  unfold pair_of, Spec.value_of. rewrite get_rendered.
  assert (Hin : In k (Object_keys rest)).
  { apply list_elem_of_In. rewrite <- (Array_sort_perm (Object_keys rest)).
    now apply list_elem_of_In. }
  destruct (get_is_Some k rest Hin) as [v ->]. simpl.
  now destruct v.
Qed.

Lemma message_canonical16 q : message q = Spec.canonical16 q.
Proof.
  rewrite message_rendered. unfold Spec.canonical16.
  now rewrite Array_sort_is_sort_keys16.
Qed.

Lemma rendered_keys q : List.map fst (Spec.rendered q) = Object_keys (omit "hmac" q).
Proof. unfold Spec.rendered. rewrite map_map. reflexivity. Qed.

Lemma omit_keys_ascii (q : obj qval) :
  Forall Spec.ascii_key (Object_keys q) ->
  Forall Spec.ascii_key (Object_keys (omit "hmac" q)).
Proof.
  unfold Object_keys, omit. induction q as [|[k v] q IH]; simpl; [auto|].
  intros H. apply Forall_cons in H as [Hk Hq].
  destruct (negb (String.eqb k "hmac")); simpl; auto.
Qed.

(** With ASCII keys it is the canonical message as the specification
    words it, keys in byte order. *)
Lemma message_canonical_ascii (q : obj qval) :
  Forall Spec.ascii_key (Object_keys q) -> message q = Spec.canonical q.
Proof.
  intros Ha. rewrite message_rendered. unfold Spec.canonical.
  rewrite Array_sort_ascii; [reflexivity|].
  rewrite rendered_keys. now apply omit_keys_ascii.
Qed.

Lemma verify_array q secret l :
  get "hmac" q = Some (QArr l) ->
  verifyProxyHmac rt q secret
  = Ok (bool_decide (List.map (fun v => to_uint8 rt v mod 256) l
                     = Bytes.of_string (Sha256.hmac_hex secret (message q)))).
Proof.
  unfold verifyProxyHmac. intros ->. cbn [Buffer_from bind]. unfold timingSafeEqual.
  destruct (Nat.eqb_spec (length (Bytes.of_string (Sha256.hmac_hex secret (message q))))
              (length (List.map (fun x => to_uint8 rt x mod 256) l))) as [E|E]; simpl.
  - f_equal. apply bool_decide_ext. split; intros H; now symmetry.
  - rewrite bool_decide_eq_false_2; [reflexivity|].
    intros H. apply E. now rewrite H.
Qed.

Lemma message_put_hmac q v : message (put "hmac" v q) = message q.
Proof. unfold message. now rewrite omit_put. Qed.

(** The message does not depend on the order in which the parameters of
    an object are enumerated. *)
Lemma message_perm q q' :
  NoDup (Object_keys q) -> q ≡ₚ q' -> message q = message q'.
Proof.
  intros Hnd Hp. unfold message.
  pose proof (omit_perm "hmac" q q' Hp) as Hrest.
  pose proof (omit_NoDup "hmac" q Hnd) as Hnd'.
  assert (Hkeys : Object_keys (omit "hmac" q) ≡ₚ Object_keys (omit "hmac" q')).
  { unfold Object_keys. now apply Permutation_map. }
  rewrite <- (Array_sort_permutation _ _ Hkeys).
  f_equal. apply map_ext. intros k. unfold pair_of.
  now rewrite (get_perm k _ _ Hnd' Hrest).
Qed.

Lemma mutate_differs i c s a :
  String.get i s = Some a -> c <> a -> mutate i c s <> s.
Proof.
  revert i. induction s as [|b s IH]; intros [|i]; simpl; try discriminate.
  - intros [= ->] Hne [= E]. contradiction.
  - intros Hg Hne [= E]. eapply IH; eauto.
Qed.

End VerifierFacts.

Section VerifierClaims.

Import Verifier.
Variable rt : runtime.

(** C1 (amended). For every parameter mapping and secret the verifier
    decides as the canonicalization algorithm with the order and the
    comparison the code has: the message it signs is the canonical message
    (the signature field removed, multi-valued parameters joined with a
    comma, keys sorted by UTF-16 code units, [key=value] pairs joined with
    [&]); for ASCII keys this is the byte-order message of the
    specification, while the key U+1F600 comes before the key U+FF5E, which
    the byte order puts first; the digest is the HMAC-SHA256 of that
    message in 64 lowercase hexadecimal characters (it gives the reference
    values on keys shorter than, equal to and longer than a block); and the
    result
    is [true] exactly when the supplied signature is a string equal to the
    digest, or a repeated parameter whose values coerce to the bytes of the
    digest. *)
Theorem verifyProxyHmac_refines_spec (q : obj qval) (secret : string) :
  message q = Spec.canonical16 q /\
  (Forall Spec.ascii_key (Object_keys q) -> message q = Spec.canonical q) /\
  message Sample.astral = (Sample.grin +:+ "=2&" +:+ Sample.tilde +:+ "=1") /\
  Sha256.hmac_hex secret (message q) = Spec.digest16 secret q /\
  String.length (Spec.digest16 secret q) = 64%nat /\
  forallb Bytes.is_lower_hex (list_ascii_of_string (Spec.digest16 secret q)) = true /\
  Sha256.hmac_hex "Jefe" "what do ya want for nothing?"
  = "5bdcc146bf60754e6a042426089575c75a003f089d2739839dec58b964ec3843"%string /\
  Sha256.hmac_hex "0123456789abcdef0123456789abcdef0123456789abcdef0123456789abcdef"
                  "shop=demo.example"
  = "8dbc60d4413f9dd19d75907baa6cae489bb9f2a1149d24e183f6884d30824cb0"%string /\
  Sha256.hmac_hex "0123456789abcdef0123456789abcdef0123456789abcdef0123456789abcdefg"
                  "shop=demo.example"
  = "ad24cd0c7d57be7141b032ec1740326c32814a9d0c41ba6523cd5bc2ead178a6"%string /\
  verifyProxyHmac rt q secret = Ok (Spec.accepts (to_uint8 rt) q secret).
Proof.
  assert (Hd : Sha256.hmac_hex secret (message q) = Spec.digest16 secret q).
  { unfold Spec.digest16, Sha256.hmac_hex. now rewrite message_canonical16. }
  split; [apply message_canonical16|].
  split; [apply message_canonical_ascii|].
  split; [vm_compute; reflexivity|]. split; [exact Hd|].
  split; [rewrite <- Hd; apply hmac_hex_length|].
  split; [apply hex_lower|].
  split; [vm_compute; reflexivity|].
  split; [vm_compute; reflexivity|].
  split; [vm_compute; reflexivity|].
  unfold Spec.accepts, Spec.signature_field.
  destruct (get "hmac" q) as [[s|l]|] eqn:E.
  - rewrite (verify_text rt q secret s E). now rewrite Hd.
  - rewrite (verify_array rt q secret l E). now rewrite Hd.
  - now apply verify_absent.
Qed.

(** C4 (amended). Verification is deterministic, and it is reflexive for
    the message the verifier builds: a parameter set carrying the digest
    of its own canonical message, keys in the order of their UTF-16 code
    units, verifies under that secret; so does one carrying the digest of
    the byte-order message of the specification when its keys are
    ASCII. *)
Theorem verify_deterministic_reflexive (params : obj qval) (secret : string) :
  (forall q q' s s', q = q' -> s = s' ->
     verifyProxyHmac rt q s = verifyProxyHmac rt q' s') /\
  verifyProxyHmac rt (put "hmac" (QStr (Spec.digest16 secret params)) params) secret
  = Ok true /\
  (Forall Spec.ascii_key (Object_keys params) ->
   verifyProxyHmac rt (put "hmac" (QStr (Spec.digest secret params)) params) secret
   = Ok true).
Proof.
  split; [now intros q q' s s' -> ->|]. split.
  - rewrite (verify_text rt _ secret (Spec.digest16 secret params)).
    + rewrite message_put_hmac.
      unfold Spec.digest16, Sha256.hmac_hex. rewrite message_canonical16.
      now rewrite String.eqb_refl.
    + apply get_put_eq.
  - intros Ha. rewrite (verify_text rt _ secret (Spec.digest secret params)).
    + rewrite message_put_hmac.
      unfold Spec.digest, Sha256.hmac_hex. rewrite (message_canonical_ascii _ Ha).
      now rewrite String.eqb_refl.
    + apply get_put_eq.
Qed.

(** C5 (amended). From a request that verifies and whose signature is a
    single string, replacing any one character of the signature by a
    different character makes verification fail, while enumerating the
    same parameters in another order leaves the result [true].  When the
    signature is a repeated parameter, replacing its values by values that
    coerce to the same bytes leaves the result [true]. *)
Theorem mutation_flips_reordering_keeps (q : obj qval) (secret : string) :
  verifyProxyHmac rt q secret = Ok true ->
  (forall s i a c,
      get "hmac" q = Some (QStr s) -> String.get i s = Some a -> c <> a ->
      verifyProxyHmac rt (put "hmac" (QStr (mutate i c s)) q) secret = Ok false) /\
  (forall q', NoDup (Object_keys q) -> q ≡ₚ q' ->
      verifyProxyHmac rt q' secret = Ok true) /\
  (forall l l',
      get "hmac" q = Some (QArr l) ->
      List.map (fun v => to_uint8 rt v mod 256) l'
      = List.map (fun v => to_uint8 rt v mod 256) l ->
      verifyProxyHmac rt (put "hmac" (QArr l') q) secret = Ok true).
Proof.
  intros Hok. split; [|split].
  - intros s i a c Hs Hi Hne.
    rewrite (verify_text rt q secret s Hs) in Hok.
    injection Hok as Hok. apply String.eqb_eq in Hok.
    rewrite (verify_text rt _ secret (mutate i c s)) by apply get_put_eq.
    rewrite message_put_hmac. f_equal. apply String.eqb_neq.
    rewrite <- Hok. eapply mutate_differs; eauto.
  - intros q' Hnd Hp. rewrite <- Hok.
    unfold verifyProxyHmac.
    rewrite <- (message_perm q q' Hnd Hp).
    now rewrite <- (get_perm "hmac" q q' Hnd Hp).
  - intros l l' Hl Hsame.
    rewrite (verify_array rt q secret l Hl) in Hok. injection Hok as Hok.
    rewrite (verify_array rt _ secret l') by apply get_put_eq.
    now rewrite message_put_hmac, Hsame, Hok.
Qed.

(** C6. The verifier returns a boolean on every input and never throws;
    an absent signature, and a signature whose length is not that of the
    digest, give [false]. *)
Theorem verifyProxyHmac_never_throws (q : obj qval) (secret : string) :
  (exists b, verifyProxyHmac rt q secret = Ok b) /\
  (get "hmac" q = None -> verifyProxyHmac rt q secret = Ok false) /\
  (forall s, get "hmac" q = Some (QStr s) -> String.length s <> 64%nat ->
             verifyProxyHmac rt q secret = Ok false) /\
  (forall l, get "hmac" q = Some (QArr l) -> length l <> 64%nat ->
             verifyProxyHmac rt q secret = Ok false).
Proof.
  split; [apply verify_returns|]. split; [apply verify_absent|]. split.
  - intros s Hs Hlen. rewrite (verify_text rt q secret s Hs). f_equal.
    apply String.eqb_neq. intros ->. now rewrite hmac_hex_length in Hlen.
  - intros l Hl Hlen. unfold verifyProxyHmac. rewrite Hl.
    cbn [Buffer_from bind]. unfold timingSafeEqual.
    rewrite of_string_length, hmac_hex_length, length_map.
    destruct (Nat.eqb_spec 64 (length l)) as [E|E]; [congruence | reflexivity].
Qed.

End VerifierClaims.

(* ===================================================================== *)
(** ** The credential store *)
(* ===================================================================== *)

Section StoreClaims.

Import Store.

Lemma upsert_present now s tok sc (t : table) r :
  t !! s = Some r ->
  upsert now (Some s) (Some tok) sc t
  = Done (<[s := Row tok sc (created_at r)]> t).
Proof.
  intros H. unfold upsert, insert, on_conflict_update. rewrite H.
  f_equal. apply map_eq. intros k.
  rewrite lookup_alter, lookup_insert. 
  destruct (decide (s = k)) as [->|Hne]; [now rewrite H | reflexivity].
Qed.

Lemma upsert_fresh now s tok sc (t : table) :
  t !! s = None ->
  upsert now (Some s) (Some tok) sc t = Done (<[s := Row tok sc now]> t).
Proof. intros H. unfold upsert, insert. now rewrite H. Qed.



End StoreClaims.

(* ===================================================================== *)
(** ** The order relay *)
(* ===================================================================== *)

(** One step of a handler: sequencing, returns and the downstream call
    are unfolded, the store and the downstream answer stay as they are. *)
Ltac io_step :=
  cbn [lift mbind io_mbind io_bind mret io_mret io_ret negb
       Gated.fetch_json Server.fetch_rest].

Section RelayFacts.


Lemma select_known (t : Store.table) s r :
  t !! s = Some r ->
  Store.bind_select t (Some s) = Ok [Store.access_token r].
Proof.
  intros H. unfold Store.bind_select, Store.select_access_token. now rewrite H.
Qed.

Lemma pool_query_reachable w t key :
  database w = Ok t ->
  pool_query_select w key = ([SelectToken key], Store.bind_select t key).
Proof. intros H. unfold pool_query_select. now rewrite H. Qed.

(** Rows come from a row of the table. *)
Lemma select_rows (t : Store.table) key tok rows :
  Store.bind_select t key = Ok (tok :: rows) ->
  exists s r, key = Some s /\ t !! s = Some r /\ tok = Store.access_token r /\ rows = nil.
Proof.
  unfold Store.bind_select, Store.select_access_token.
  destruct key as [s|]; [|discriminate].
  destruct (t !! s) as [r|] eqn:E.
  - intros [= <- <-]. eauto 10.
  - destruct (Store.rejected (Some s)); discriminate.
Qed.

End RelayFacts.

Section GateClaims.

Import Verifier.
Variable rt : runtime.
Variable SHOPIFY_API_SECRET : string.

(** C2. A request whose signature does not verify is answered 403 with
    no store lookup and no downstream call; whenever the relay touches the
    store or the downstream API the signature has verified. *)
Theorem bad_signature_forbidden (w : world) (req : request) :
  verifyProxyHmac rt (query req) SHOPIFY_API_SECRET = Ok false ->
  Gated.proxy_cod rt SHOPIFY_API_SECRET w req
  = (nil, error_response 403 "Bad HMAC") /\
  (forall w' req',
      fst (Gated.proxy_cod rt SHOPIFY_API_SECRET w' req') <> nil ->
      verifyProxyHmac rt (query req') SHOPIFY_API_SECRET = Ok true).
Proof.
  intros Hbad. split.
  - unfold Gated.proxy_cod. now rewrite Hbad.
  - intros w' req' Htrace.
    destruct (verify_returns rt (query req') SHOPIFY_API_SECRET) as [[|] Hb];
      [exact Hb|].
    exfalso. apply Htrace. unfold Gated.proxy_cod. now rewrite Hb.
Qed.


End GateClaims.

Section RelayPayload.

Import Verifier.

Lemma line_item_built li item : Gated.line_item li = Ok item -> item_built li item.
Proof.
  unfold Gated.line_item, item_built.
  destruct (prop (Some li) "variantId") as [v|] eqn:Ev; [|discriminate].
  destruct (prop (Some li) "quantity") as [q|] eqn:Eq; [|discriminate].
  cbn [bind]. intros [= <-].
  exists v, q. split; [reflexivity|]. split; [reflexivity|].
  unfold or_else. destruct (truthy q); reflexivity.
Qed.

Lemma Array_map_built lis items :
  Gated.Array_map Gated.line_item lis = Ok items -> Forall2 item_built lis items.
Proof.
  revert items. induction lis as [|li lis IH]; intros items; simpl.
  - intros [= <-]. constructor.
  - destruct (Gated.line_item li) as [item|] eqn:E; [|discriminate].
    destruct (Gated.Array_map Gated.line_item lis) as [rest|]; [|discriminate].
    cbn [bind]. intros [= <-]. constructor; auto using line_item_built.
Qed.

Lemma body_prop body k :
  prop (or_else body (Some (JObj nil))) k = Ok (body_field body k).
Proof.
  unfold body_field.
  destruct (prop (or_else body (Some (JObj nil))) k) eqn:E; [reflexivity|].
  exfalso. unfold or_else in E. destruct (truthy body) eqn:Et.
  - destruct body as [[]|]; simpl in *; discriminate.
  - simpl in E. discriminate.
Qed.

Lemma destructure_fields body :
  Gated.destructure body
  = Ok (Gated.OrderFields
          (default_to (JArr nil) (body_field body "lineItems"))
          (default_to (JObj nil) (body_field body "customer"))
          (default_to (JObj nil) (body_field body "shippingAddress"))
          (default_to (JStr "COD order") (body_field body "note"))
          (default_to (JNum 0) (body_field body "codFee"))).
Proof. unfold Gated.destructure. now rewrite !body_prop. Qed.

Lemma draftInput_built body fields input :
  Gated.destructure body = Ok fields ->
  Gated.draftInput fields = Ok input ->
  payload_built body input.
Proof.
  rewrite destructure_fields. intros [= <-].
  unfold Gated.draftInput, payload_built. cbn [Gated.customer Gated.lineItems
    Gated.note Gated.shippingAddress].
  destruct (prop _ "email") as [email|] eqn:Ee; [|discriminate].
  cbn [bind]. unfold Gated.map_line_items.
  destruct (default_to (JArr nil) (body_field body "lineItems")) as [| | | |lis| |] eqn:El;
    try discriminate.
  destruct (Gated.Array_map Gated.line_item lis) as [items|] eqn:Em; [|discriminate].
  cbn [bind]. intros [= <-].
  exists lis, items, email. split; [reflexivity|]. split; [reflexivity|].
  split; [now apply Array_map_built|].
  unfold or_else. destruct (truthy email); reflexivity.
Qed.

End RelayPayload.

Section RelayClaims.

Import Verifier.
Variable rt : runtime.
Variable SHOPIFY_API_SECRET : string.




Lemma gated_fetch w req r :
  In (Fetch r) (fst (Gated.proxy_cod rt SHOPIFY_API_SECRET w req)) ->
  exists fields input accessToken,
    Gated.destructure (body req) = Ok fields /\
    Gated.draftInput fields = Ok input /\
    r = Gated.graphql_request (get "shop" (query req)) accessToken input.
Proof.
  unfold Gated.proxy_cod, pool_query_select.
  destruct (verifyProxyHmac rt (query req) SHOPIFY_API_SECRET) as [[|]|e];
    io_step; cbn [answer fst In];
    try (simpl; tauto).
  destruct (database w) as [t|e]; cbn [bind]; [|simpl; intuition discriminate].
  destruct (Store.bind_select t _) as [[|tok rows]|e];
    try (simpl; intuition discriminate).
  destruct (Gated.destructure (body req)) as [fields|e] eqn:Ef;
    [|simpl; intuition discriminate].
  destruct (Gated.draftInput fields) as [input|e] eqn:Ei;
    [|simpl; intuition discriminate].
  io_step.
  intros Hin. exists fields, input, tok. split; [reflexivity|]. split; [exact Ei|].
  destruct (downstream w _) as [e|code [resp|e]];
    try destruct (Gated.relay_result resp);
    simpl in Hin; destruct Hin as [Hin|[Hin|[]]]; congruence.
Qed.

Lemma server_fetch w req r :
  In (Fetch r) (fst (Server.proxy_cod w req)) -> sent r = Server.payload.
Proof.
  unfold Server.proxy_cod, Server.handler, Server.ensureTablesSafe, pool_query_select.
  destruct (DATABASE_URL_set w); destruct (Server.resolve_shop req) as [shop|e];
    io_step; cbn [fst In];
    try (simpl; intuition discriminate).
  - destruct (String.eqb shop ""); [simpl; intuition discriminate|].
    io_step; cbn [fst In].
    destruct (database w) as [t|e]; cbn [bind]; [|simpl; intuition discriminate].
    destruct (Store.bind_select t _) as [[|tok rows]|e];
      try (simpl; intuition discriminate).
    io_step.
    intros Hin.
    assert (Hr : r = Server.rest_request shop tok).
    { destruct (downstream w _) as [e|code [data|e]]; cbn [bind] in Hin;
        try destruct (negb (Server.ok_status code));
        simpl in Hin; intuition congruence. }
    now rewrite Hr.
  - destruct (String.eqb shop ""); simpl; intuition discriminate.
Qed.

(** C9 (amended). Every downstream order payload carries the two tags
    [COD] and [COD-App].  In the gated relay the draft order input is built
    from the line items, customer, shipping address and note of the request
    body and from nothing else: the note defaults to [COD order], each line
    item keeps its [variantId] and gets as quantity what [parseInt] reads
    off the text of its quantity, 1 when it has none.  In [server.js] the
    payload is one fixed draft order, a line item of quantity 1, whatever
    the body of the request. *)
Theorem order_payload_built (w : world) (req : request) (r : fetch_request) :
  (In (Fetch r) (fst (Gated.proxy_cod rt SHOPIFY_API_SECRET w req)) ->
   exists input,
     sent r = JObj [("query", JStr Gated.gql);
                    ("variables", JObj [("input", input)])]%string /\
     payload_built (body req) input) /\
  (In (Fetch r) (fst (Server.proxy_cod w req)) ->
   sent r
   = JObj [("draft_order",
                 JObj [("line_items",
                        JArr [JObj [("title", JStr "Cash on Delivery");
                                    ("quantity", JNum 1);
                                    ("price", JStr "0.00")]]);
                       ("note", JStr "COD order");
                       ("tags", JArr [JStr "COD"; JStr "COD-App"])])]%string).
Proof.
  split.
  - intros Hin. apply gated_fetch in Hin as (fields & input & tok & Hf & Hi & ->).
    exists input. split; [reflexivity|]. eapply draftInput_built; eauto.
  - intros Hin. apply server_fetch in Hin. rewrite Hin. reflexivity.
Qed.

(** C10. The relay of [server.js] never looks at a signature: two
    requests that agree on the [shop] parameter and on the body get the
    same response and cause the same external calls, whatever else their
    query strings carry.  With no [shop] in the query the tenant is read
    from the body, and for an installed shop the stored credential is
    spent: the one downstream call is a POST to the draft orders of that
    shop that carries the credential stored for it. *)
Theorem server_relay_unauthenticated (w : world) (req : request) :
  (forall req',
      get "shop" (query req') = get "shop" (query req) ->
      body req' = body req ->
      Server.proxy_cod w req' = Server.proxy_cod w req) /\
  (forall k v, k <> "shop"%string ->
      Server.proxy_cod w (Request (put k v (query req)) (body req))
      = Server.proxy_cod w req) /\
  (forall t shop r,
      get "shop" (query req) = None ->
      prop (body req) "shop" = Ok (Some (JStr shop)) ->
      shop <> EmptyString ->
      DATABASE_URL_set w = true ->
      database w = Ok t ->
      t !! shop = Some r ->
      exists resp,
        Server.proxy_cod w req
        = ([CreateTable; SelectToken (Some shop);
            Fetch (FetchRequest
                     ("https://" +:+ shop +:+ "/admin/api/2024-04/draft_orders.json")
                     (Store.access_token r)
                     (JObj [("draft_order",
                 JObj [("line_items",
                        JArr [JObj [("title", JStr "Cash on Delivery");
                                    ("quantity", JNum 1);
                                    ("price", JStr "0.00")]]);
                       ("note", JStr "COD order");
                       ("tags", JArr [JStr "COD"; JStr "COD-App"])])]%string))],
           resp)).
Proof.
  assert (Hsame : forall req', get "shop" (query req') = get "shop" (query req) ->
                              body req' = body req ->
                              Server.proxy_cod w req' = Server.proxy_cod w req).
  { intros req' Hq Hb.
    unfold Server.proxy_cod, Server.handler, Server.resolve_shop.
    now rewrite Hq, Hb. }
  split; [exact Hsame|]. split.
  - intros k v Hk. apply Hsame; [|reflexivity].
    cbn [query]. now apply get_put_ne.
  - intros t shop r Hq Hb Hne Hurl Hdb Hrow.
    assert (Hshop : Server.resolve_shop req = Ok shop).
    { unfold Server.resolve_shop. rewrite Hq, Hb. cbn.
      destruct shop; [contradiction | reflexivity]. }
    unfold Server.proxy_cod, Server.handler, Server.ensureTablesSafe.
    rewrite Hurl, Hshop. io_step.
    apply String.eqb_neq in Hne. rewrite Hne.
    rewrite (pool_query_reachable w t _ Hdb), (select_known t shop r Hrow).
    io_step.
    change (Server.rest_request shop (Store.access_token r))
      with (FetchRequest
              ("https://" +:+ shop +:+ "/admin/api/2024-04/draft_orders.json")
              (Store.access_token r) Server.payload).
    destruct (downstream w _) as [e|code [data|e]]; cbn [bind];
      try destruct (negb (Server.ok_status code)); eauto.
Qed.

End RelayClaims.

(* ===================================================================== *)
(** ** The claims on concrete requests *)
(* ===================================================================== *)

Section Concrete.

Import Verifier Demo.

Example signature_is_digest : Spec.digest secret params = signature.
Proof. vm_compute. reflexivity. Qed.

Example signed_verifies : verifyProxyHmac node signed secret = Ok true.
Proof. vm_compute. reflexivity. Qed.

Example forged_fails : verifyProxyHmac node forged secret = Ok false.
Proof. vm_compute. reflexivity. Qed.

(** A repeated [hmac] parameter reaches [Buffer.from] as an array and is
    compared by the bytes its values coerce to. *)
Example repeated_signature_parameter :
  verifyProxyHmac node
    (put "hmac" (QArr (List.map string_of_Z (Bytes.of_string signature))) params)
    secret
  = Ok true.
Proof. vm_compute. reflexivity. Qed.

(** Downstream validation errors are passed on with status 400. *)
Example user_errors_passed_on :
  let errors := JArr [JObj [("field", JStr "lineItems"); ("message", JStr "is empty")]] in
  let w := World true (Ok installed)
             (fun _ => Responded 200
                (Ok (JObj [("data",
                            JObj [("draftOrderCreate",
                                   JObj [("draftOrder", JNull);
                                         ("userErrors", errors)])])]))) in
  snd (Gated.proxy_cod node secret w signed_request)
  = Response 400 (JObj [("ok", JBool false); ("errors", errors)]).
Proof. vm_compute. reflexivity. Qed.

(** An unreachable store is a 500, after the one attempted lookup. *)
Example store_unreachable :
  Gated.proxy_cod node secret
    (World true (Throw (Exn "Error" "connect ECONNREFUSED")) (fun _ => Rejected (Exn "" "")))
    signed_request
  = ([SelectToken (Some "demo.example")], error_response 500 "Server error").
Proof. vm_compute. reflexivity. Qed.

Lemma signed_NoDup : NoDup (Object_keys signed).
Proof. compute_done. Qed.


End Concrete.

(** C1: the claim fails on the order of the keys and on a repeated
    signature.  The code puts the key U+1F600 before the key U+FF5E and the
    byte order of the specification puts it after, so a signature made as
    the specification says is refused; and a repeated [hmac] parameter
    whose values coerce to the bytes of the digest is accepted although it
    is not the digest. *)
Lemma canonical_order_differs :
  Verifier.message Sample.astral = (Sample.grin +:+ "=2&" +:+ Sample.tilde +:+ "=1") /\
  Spec.canonical Sample.astral = (Sample.tilde +:+ "=1&" +:+ Sample.grin +:+ "=2") /\
  Spec.verify (put "hmac" (QStr (Spec.digest Demo.secret Sample.astral)) Sample.astral)
              Demo.secret = true /\
  Verifier.verifyProxyHmac Demo.node
    (put "hmac" (QStr (Spec.digest Demo.secret Sample.astral)) Sample.astral) Demo.secret
  = Ok false /\
  Spec.verify (put "hmac" (QArr Sample.numerals) Demo.params) Demo.secret = false /\
  Verifier.verifyProxyHmac Demo.node
    (put "hmac" (QArr Sample.numerals) Demo.params) Demo.secret
  = Ok true.
Proof. vm_compute. repeat split. Qed.

(** C1 (amended), on the signed demo request, whose keys are ASCII. *)
Lemma verifyProxyHmac_refines_spec_witness :
  Verifier.message Demo.signed = Spec.canonical16 Demo.signed /\
  Verifier.message Demo.signed = Spec.canonical Demo.signed /\
  Verifier.verifyProxyHmac Demo.node Demo.signed Demo.secret
  = Ok (Spec.accepts Demo.decimal_byte Demo.signed Demo.secret).
Proof.
  destruct (verifyProxyHmac_refines_spec Demo.node Demo.signed Demo.secret)
    as (H16 & Hascii & _ & _ & _ & _ & _ & _ & _ & Hdecides).
  split; [exact H16|]. split; [|exact Hdecides].
  apply Hascii. repeat constructor.
Defined.

(** C2, on the forged demo request. *)
Lemma bad_signature_forbidden_witness :
  Verifier.verifyProxyHmac Demo.node Demo.forged Demo.secret = Ok false /\
  Gated.proxy_cod Demo.node Demo.secret Demo.shop_up
    (Request Demo.forged (Some Demo.order_body))
  = (nil, error_response 403 "Bad HMAC").
Proof.
  assert (H : Verifier.verifyProxyHmac Demo.node Demo.forged Demo.secret = Ok false)
    by (vm_compute; reflexivity).
  split; [exact H|].
  exact (proj1 (bad_signature_forbidden Demo.node Demo.secret Demo.shop_up
                  (Request Demo.forged (Some Demo.order_body)) H)).
Defined.

(** C4: the claim fails for the canonical message of the specification.
    For the keys U+FF5E and U+1F600 the digest of the byte-order message is
    not the digest the verifier computes, and a parameter set carrying it
    is refused. *)
Lemma byte_order_signature_rejected :
  Spec.digest Demo.secret Sample.astral
  = "2077113e479d6fe7fdb27ef881ac6f1b4411ae5d16d84ca3f8b8649943cec64d"%string /\
  Sha256.hmac_hex Demo.secret (Verifier.message Sample.astral)
  = "e91990634f23d1f0de025a564e7bd8c308512efb3ebfc3692896366a8e24e1c7"%string /\
  Verifier.verifyProxyHmac Demo.node
    (put "hmac" (QStr (Spec.digest Demo.secret Sample.astral)) Sample.astral) Demo.secret
  = Ok false.
Proof. vm_compute. repeat split. Qed.

(** C4 (amended), on the demo parameters and on the two keys outside
    ASCII. *)
Lemma verify_deterministic_reflexive_witness :
  Verifier.verifyProxyHmac Demo.node
    (put "hmac" (QStr (Spec.digest Demo.secret Demo.params)) Demo.params) Demo.secret
  = Ok true /\
  Verifier.verifyProxyHmac Demo.node
    (put "hmac" (QStr (Spec.digest16 Demo.secret Sample.astral)) Sample.astral) Demo.secret
  = Ok true.
Proof.
  split.
  - apply (proj2 (proj2 (verify_deterministic_reflexive Demo.node Demo.params Demo.secret))).
    repeat constructor.
  - exact (proj1 (proj2 (verify_deterministic_reflexive Demo.node Sample.astral
                           Demo.secret))).
Defined.

(** C5: the claim fails for reordering.  The signed demo request verifies,
    and so does the same request with its parameters in the opposite
    order. *)
Lemma reordering_does_not_flip :
  Verifier.verifyProxyHmac Demo.node Demo.signed Demo.secret = Ok true /\
  Demo.signed ≡ₚ Demo.reordered /\
  Demo.reordered <> Demo.signed /\
  Verifier.verifyProxyHmac Demo.node Demo.reordered Demo.secret = Ok true.
Proof.
  split; [vm_compute; reflexivity|].
  split; [apply Permutation_rev|].
  split; [discriminate|].
  vm_compute; reflexivity.
Qed.

(** C5 (amended), on the signed demo request: its first character [8]
    replaced by [0], and its parameters reversed; and on the demo
    parameters with the digest as a repeated parameter, the numeral
    [000000056] replaced by [100000056]. *)
Lemma mutation_flips_reordering_keeps_witness :
  Verifier.verifyProxyHmac Demo.node Demo.signed Demo.secret = Ok true /\
  Verifier.verifyProxyHmac Demo.node
    (put "hmac" (QStr (mutate 0 "0" Demo.signature)) Demo.signed) Demo.secret
  = Ok false /\
  Verifier.verifyProxyHmac Demo.node Demo.reordered Demo.secret = Ok true /\
  Verifier.verifyProxyHmac Demo.node Sample.repeated Demo.secret = Ok true /\
  Verifier.verifyProxyHmac Demo.node
    (put "hmac" (QArr Sample.mutated_numerals) Sample.repeated) Demo.secret
  = Ok true.
Proof.
  assert (H : Verifier.verifyProxyHmac Demo.node Demo.signed Demo.secret = Ok true)
    by (vm_compute; reflexivity).
  assert (H' : Verifier.verifyProxyHmac Demo.node Sample.repeated Demo.secret = Ok true)
    by (vm_compute; reflexivity).
  destruct (mutation_flips_reordering_keeps Demo.node Demo.signed Demo.secret H)
    as (Hmut & Hperm & _).
  destruct (mutation_flips_reordering_keeps Demo.node Sample.repeated Demo.secret H')
    as (_ & _ & Hsame).
  split; [exact H|]. split; [|split; [|split; [exact H'|]]].
  - apply (Hmut Demo.signature 0%nat "8"%char "0"%char); [reflexivity | reflexivity | discriminate].
  - apply Hperm; [apply signed_NoDup | apply Permutation_rev].
  - apply (Hsame Sample.padded_numerals); [reflexivity | vm_compute; reflexivity].
Defined.

(** C6, on the demo parameters without a signature. *)
Lemma verifyProxyHmac_never_throws_witness :
  get "hmac" Demo.params = None /\
  Verifier.verifyProxyHmac Demo.node Demo.params Demo.secret = Ok false.
Proof.
  split; [reflexivity|].
  exact (proj1 (proj2 (verifyProxyHmac_never_throws Demo.node Demo.params Demo.secret))
               eq_refl).
Defined.





(** C9: the claim fails on the fee and, in [server.js], on the whole body.
    The gated relay builds the same draft order input from the demo body with
    [codFee: 50] and without a [codFee], and that input has no fee; the relay
    of [server.js] sends its fixed payload whatever line items the body
    names. *)
Lemma payload_leaves_out_fee :
  (exists input,
      JS.bind (Gated.destructure (Some Demo.order_body)) Gated.draftInput = Ok input /\
      JS.bind (Gated.destructure (Some Demo.order_body_no_fee)) Gated.draftInput = Ok input /\
      prop (Some input) "codFee" = Ok None /\
      prop (Some input) "fee" = Ok None) /\
  prop (Some Demo.unsigned_body) "lineItems"
  = Ok (Some (JArr [JObj [("variantId", JStr "gid://variant/1");
                          ("quantity", JNum 3)]%string])) /\
  fst (Server.proxy_cod Demo.shop_up Demo.unsigned_request)
  = [CreateTable; SelectToken (Some "demo.example"%string);
     Fetch (FetchRequest "https://demo.example/admin/api/2024-04/draft_orders.json"
              "shpat_1" Server.payload)].
Proof.
  split; [|split; vm_compute; reflexivity].
  eexists. vm_compute. repeat split.
Qed.

(** C9 (amended), on the signed demo request and on the demo request to
    [server.js]. *)
Lemma order_payload_built_witness :
  fst (Gated.proxy_cod Demo.node Demo.secret Demo.shop_up Demo.signed_request)
  = [SelectToken (Some "demo.example"%string);
     Fetch (FetchRequest "https://demo.example/admin/api/2025-07/graphql.json"
              "shpat_1"
              (JObj [("query", JStr Gated.gql);
                     ("variables", JObj [("input", Sample.order_input)])]%string))] /\
  payload_built (Some Demo.order_body) Sample.order_input /\
  fst (Server.proxy_cod Demo.shop_up Demo.unsigned_request)
  = [CreateTable; SelectToken (Some "demo.example"%string);
     Fetch (FetchRequest "https://demo.example/admin/api/2024-04/draft_orders.json"
              "shpat_1"
              (JObj [("draft_order",
                 JObj [("line_items",
                        JArr [JObj [("title", JStr "Cash on Delivery");
                                    ("quantity", JNum 1);
                                    ("price", JStr "0.00")]]);
                       ("note", JStr "COD order");
                       ("tags", JArr [JStr "COD"; JStr "COD-App"])])]%string))].
Proof.
  split; [vm_compute; reflexivity|]. split; [|vm_compute; reflexivity].
  destruct (proj1 (order_payload_built Demo.node Demo.secret Demo.shop_up
                     Demo.signed_request
                     (Gated.graphql_request (Some (QStr "demo.example")) "shpat_1"
                        Sample.order_input))
                  ltac:(vm_compute; right; left; reflexivity))
    as (input & Hsent & Hbuilt).
  injection Hsent as <-. exact Hbuilt.
Defined.

(** C10, on the demo request that has no query string. *)
Lemma server_relay_unauthenticated_witness :
  Server.proxy_cod Demo.shop_up
    (Request (put "hmac" (QStr "forged") (query Demo.unsigned_request))
             (body Demo.unsigned_request))
  = Server.proxy_cod Demo.shop_up Demo.unsigned_request /\
  exists resp,
    Server.proxy_cod Demo.shop_up Demo.unsigned_request
    = ([CreateTable; SelectToken (Some "demo.example"%string);
        Fetch (FetchRequest "https://demo.example/admin/api/2024-04/draft_orders.json"
                 "shpat_1"
                 (JObj [("draft_order",
                 JObj [("line_items",
                        JArr [JObj [("title", JStr "Cash on Delivery");
                                    ("quantity", JNum 1);
                                    ("price", JStr "0.00")]]);
                       ("note", JStr "COD order");
                       ("tags", JArr [JStr "COD"; JStr "COD-App"])])]%string))], resp).
Proof.
  destruct (server_relay_unauthenticated Demo.shop_up Demo.unsigned_request)
    as (_ & Hquery & Hbody).
  split.
  - apply Hquery. discriminate.
  - apply (Hbody Demo.installed "demo.example"%string
             (Store.Row "shpat_1" (Some "write_draft_orders"%string) 1700000000));
      [reflexivity | reflexivity | discriminate | reflexivity | reflexivity | reflexivity].
Defined.

(** C3, on the demo shop: a repeated install keeps the first timestamp. *)
Example upsert_twice :
  Store.upsert 1700000500 (Some "demo.example") (Some "shpat_2") None Demo.installed
  = Store.Done
      (<[ "demo.example"%string := Store.Row "shpat_2" None 1700000000 ]> Demo.installed).
Proof.
  exact (upsert_present 1700000500 "demo.example" "shpat_2" None Demo.installed
           (Store.Row "shpat_1" (Some "write_draft_orders"%string) 1700000000)
           (lookup_insert_eq _ _ _)).
Qed.

(* ===================================================================== *)
(** ** Beyond the claims: the verifier *)
(* ===================================================================== *)

Section VerifierExtras.

Import Verifier.
Variable rt : runtime.

Lemma get_joined_hmac q : get "hmac" (joined q) = get "hmac" q.
Proof.
  unfold joined. induction q as [|[k v] q IH]; simpl; [reflexivity|].
  destruct (String.eqb k "hmac"); [reflexivity | exact IH].
Qed.

Lemma omit_joined q :
  omit "hmac" (joined q)
  = List.map (fun p => (fst p, QStr (Text.qval_toString (snd p)))) (omit "hmac" q).
Proof.
  unfold joined, omit. induction q as [|[k v] q IH]; simpl; [reflexivity|].
  destruct (String.eqb k "hmac"); simpl; [exact IH | now rewrite IH].
Qed.

Lemma get_flat k (o : obj qval) :
  get k (List.map (fun p => (fst p, QStr (Text.qval_toString (snd p)))) o)
  = (fun v => QStr (Text.qval_toString v)) <$> get k o.
Proof.
  induction o as [|[j v] o IH]; simpl; [reflexivity|].
  destruct (String.eqb j k); [reflexivity | exact IH].
Qed.

Lemma message_joined q : message (joined q) = message q.
Proof.
  unfold message. rewrite omit_joined.
  set (rest := omit "hmac" q).
  unfold Object_keys. rewrite map_map. simpl.
  f_equal. apply map_ext. intros k. unfold pair_of. rewrite get_flat.
  destruct (get k rest) as [[s|l]|]; reflexivity.
Qed.

(** X1. The verifier cannot tell a repeated parameter from the single
    parameter whose value is the comma-joined values: both give the same
    canonical message, so a signature valid for one is valid for the
    other. *)
Theorem repeated_parameter_as_joined (q : obj qval) (secret : string) :
  message (joined q) = message q /\
  verifyProxyHmac rt (joined q) secret = verifyProxyHmac rt q secret.
Proof.
  split; [apply message_joined|].
  unfold verifyProxyHmac. now rewrite get_joined_hmac, message_joined.
Qed.

(** X2. A signature that contains any character other than a lowercase
    hexadecimal digit is rejected, whatever the parameters and the secret:
    the digest is compared as text, so an uppercase rendering of the right
    digest fails. *)
Theorem non_hex_signature_rejected (q : obj qval) (secret s : string) :
  get "hmac" q = Some (QStr s) ->
  forallb Bytes.is_lower_hex (list_ascii_of_string s) = false ->
  verifyProxyHmac rt q secret = Ok false.
Proof.
  intros Hs Hbad. rewrite (verify_text rt q secret s Hs). f_equal.
  apply String.eqb_neq. intros ->.
  unfold Sha256.hmac_hex in Hbad. now rewrite hex_lower in Hbad.
Qed.

End VerifierExtras.

Lemma non_hex_signature_rejected_witness :
  Verifier.verifyProxyHmac Demo.node Sample.shouted Demo.secret = Ok false.
Proof.
  apply (non_hex_signature_rejected Demo.node Sample.shouted Demo.secret
           "8F04F60732DDB1B833E5F074DDC152C40B1641F6417234F16E391FC5EF8D4E7F").
  - reflexivity.
  - vm_compute. reflexivity.
Defined.

(* ===================================================================== *)
(** ** Beyond the claims: the credential store *)
(* ===================================================================== *)

Section StoreExtras.

Import Store.

(** X3. An upsert for one tenant leaves the row of every other tenant as
    it was. *)
Theorem upsert_other_tenants (now : Z) (shop : string) (token sc : option string)
    (t t' : table) (other : string) :
  upsert now (Some shop) token sc t = Done t' ->
  other <> shop ->
  t' !! other = t !! other.
Proof.
  unfold upsert, insert, on_conflict_update.
  destruct token as [tok|]; [|discriminate].
  destruct (t !! shop) eqn:E; intros [= <-] Hne.
  - rewrite lookup_alter. destruct (decide (shop = other)); [congruence | reflexivity].
  - now rewrite lookup_insert_ne.
Qed.

(** X4. Repeating a callback is harmless: the same upsert run a second
    time, at any later time, leaves the table exactly as the first run
    left it. *)
Theorem upsert_idempotent (now1 now2 : Z) (shop : string) (token sc : option string)
    (t t1 : table) :
  upsert now1 (Some shop) token sc t = Done t1 ->
  upsert now2 (Some shop) token sc t1 = Done t1.
Proof.
  destruct token as [tok|]; [|discriminate].
  intros H1.
  assert (Hrow : exists r, t1 !! shop = Some r /\ access_token r = tok /\ scope r = sc).
  { destruct (t !! shop) as [r|] eqn:E.
    - rewrite (upsert_present _ _ _ _ _ _ E) in H1. injection H1 as <-.
      eexists. rewrite lookup_insert_eq. eauto.
    - rewrite (upsert_fresh _ _ _ _ _ E) in H1. injection H1 as <-.
      eexists. rewrite lookup_insert_eq. eauto. }
  destruct Hrow as (r & Hr & Htok & Hsc).
  rewrite (upsert_present _ _ _ _ _ _ Hr). f_equal.
  apply insert_id. rewrite Hr. f_equal.
  destruct r as [a s c]; simpl in *. now subst.
Qed.

Lemma bind_upsert_Done now shop token sc (t t' : table) :
  bind_upsert now shop token sc t = Done t' ->
  rejected shop = false /\ rejected token = false /\ rejected sc = false /\
  upsert now shop token sc t = Done t'.
Proof.
  unfold bind_upsert.
  destruct (rejected shop), (rejected token), (rejected sc); try discriminate.
  auto.
Qed.


End StoreExtras.

Lemma upsert_other_tenants_witness :
  (<[ "other.example"%string := Store.Row "shpat_2" None 1700000500 ]> Demo.installed)
    !! "demo.example"%string
  = Demo.installed !! "demo.example"%string.
Proof.
  apply (upsert_other_tenants 1700000500 "other.example" (Some "shpat_2"%string) None
           Demo.installed _ "demo.example").
  - apply upsert_fresh. reflexivity.
  - discriminate.
Defined.

Lemma upsert_idempotent_witness :
  Store.upsert 1700000900 (Some "demo.example"%string) (Some "shpat_2"%string) None
    (<[ "demo.example"%string := Store.Row "shpat_2" None 1700000000 ]> Demo.installed)
  = Store.Done
      (<[ "demo.example"%string := Store.Row "shpat_2" None 1700000000 ]> Demo.installed).
Proof.
  apply (upsert_idempotent 1700000500 1700000900 "demo.example" (Some "shpat_2"%string)
           None Demo.installed).
  apply (upsert_present 1700000500 "demo.example" "shpat_2" None Demo.installed
           Sample.stored).
  reflexivity.
Defined.

(* ===================================================================== *)
(** ** Beyond the claims: the relay with the HMAC check *)
(* ===================================================================== *)

Section GatedExtras.

Import Verifier.
Variable rt : runtime.
Variable SHOPIFY_API_SECRET : string.

Lemma gated_run w req key r input :
  reaches_downstream rt SHOPIFY_API_SECRET w req key r input ->
  Gated.proxy_cod rt SHOPIFY_API_SECRET w req
  = ([SelectToken (Some key);
      Fetch (Gated.graphql_request (get "shop" (query req)) (Store.access_token r) input)],
     match downstream w (Gated.graphql_request (get "shop" (query req))
                                               (Store.access_token r) input) with
     | Rejected _ => server_error
     | Responded _ parsed => relayed_answer parsed
     end).
Proof.
  intros (Hok & (t & Hdb & Hrow) & Hkey & Hinput).
  unfold Gated.proxy_cod. rewrite Hok. io_step.
  rewrite (pool_query_reachable w t _ Hdb), Hkey, (select_known t key r Hrow).
  destruct (Gated.destructure (body req)) as [fields|e] eqn:Ef; [|discriminate].
  cbn [bind] in Hinput. rewrite Hinput. io_step.
  unfold relayed_answer.
  destruct (downstream w _) as [e|code [resp|e]]; cbn [bind]; try reflexivity.
  destruct (Gated.relay_result resp); reflexivity.
Qed.




Lemma relay_result_status resp r :
  Gated.relay_result resp = Ok r -> status r = 400 \/ status r = 200.
Proof.
  unfold Gated.relay_result, Gated.rejected, Gated.created.
  repeat (match goal with
          | |- context [JS.bind ?m _] => destruct m; cbn [bind]
          | |- context [if ?b then _ else _] => destruct b
          end; try discriminate);
    intros [= <-]; simpl; auto.
Qed.

(** X7. The relay answers with one of the statuses 200, 400, 401, 403 and
    500, and every 500 has the fixed body
    [{ok:false, error:"Server error"}]: no text of an exception (of the
    store, of the downstream call, of a malformed body) reaches the
    caller. *)
Theorem gated_statuses (w : world) (req : request) :
  let r := snd (Gated.proxy_cod rt SHOPIFY_API_SECRET w req) in
  In (status r) [200; 400; 401; 403; 500] /\
  (status r = 500 -> r = error_response 500 "Server error").
Proof.
  cbv zeta. unfold Gated.proxy_cod, pool_query_select.
  destruct (verifyProxyHmac rt (query req) SHOPIFY_API_SECRET) as [[|]|e];
    io_step; cbn [answer snd]; try (simpl; intuition discriminate).
  destruct (database w) as [t|e]; cbn [bind]; [|simpl; intuition discriminate].
  destruct (Store.bind_select t _) as [[|tok rows]|e];
    try (simpl; intuition discriminate).
  destruct (Gated.destructure (body req)) as [fields|e];
    [|simpl; intuition discriminate].
  destruct (Gated.draftInput fields) as [input|e];
    [|simpl; intuition discriminate].
  io_step.
  destruct (downstream w _) as [e|code [resp|e]];
    try (simpl; intuition discriminate).
  destruct (Gated.relay_result resp) as [r|e] eqn:Er;
    [|simpl; intuition discriminate].
  cbn [lift io_bind answer snd app].
  destruct (relay_result_status _ _ Er) as [-> | ->]; simpl; intuition discriminate.
Qed.

Lemma draftInput_needs_array body v :
  body_field body "lineItems" = Some v -> (forall l, v <> JArr l) ->
  exists e, JS.bind (Gated.destructure body) Gated.draftInput = Throw e.
Proof.
  intros Hv Hna. rewrite destructure_fields. cbn [bind].
  unfold Gated.draftInput. cbn [Gated.customer Gated.lineItems]. rewrite Hv.
  cbn [default_to].
  destruct (prop _ "email") as [email|e]; cbn [bind]; [|eauto].
  destruct v; cbn [Gated.map_line_items bind]; eauto.
  exfalso. eapply Hna. reflexivity.
Qed.

(** X8. A body whose [lineItems] is present and is not an array is
    answered 500 after the store lookup and without any downstream call:
    the credential is not spent on a request that cannot be built. *)
Theorem malformed_line_items (w : world) (t : Store.table) (req : request)
    (key : string) (r : Store.row) (v : json) :
  verifyProxyHmac rt (query req) SHOPIFY_API_SECRET = Ok true ->
  database w = Ok t ->
  Gated.pg_param rt (get "shop" (query req)) = Some key ->
  t !! key = Some r ->
  body_field (body req) "lineItems" = Some v ->
  (forall l, v <> JArr l) ->
  Gated.proxy_cod rt SHOPIFY_API_SECRET w req
  = ([SelectToken (Some key)], error_response 500 "Server error").
Proof.
  intros Hok Hdb Hkey Hrow Hv Hna.
  destruct (draftInput_needs_array _ _ Hv Hna) as [e He].
  unfold Gated.proxy_cod. rewrite Hok. io_step.
  rewrite (pool_query_reachable w t _ Hdb), Hkey, (select_known t key r Hrow).
  destruct (Gated.destructure (body req)) as [fields|e'];
    cbn [bind] in He; [rewrite He|]; reflexivity.
Qed.

(** X9. The stored credential is only ever sent for the shop it belongs
    to: whenever the relay calls downstream, the signature has verified,
    the store has a row for the shop parameter, and the one call is a POST
    to the GraphQL endpoint of that shop carrying the credential of that
    row and the draft order input built from the body of the request; the
    trace is the one lookup followed by that one call. *)
Theorem gated_call_uses_stored_token (w : world) (req : request) (f : fetch_request) :
  In (Fetch f) (fst (Gated.proxy_cod rt SHOPIFY_API_SECRET w req)) ->
  exists key r input,
    verifyProxyHmac rt (query req) SHOPIFY_API_SECRET = Ok true /\
    Gated.pg_param rt (get "shop" (query req)) = Some key /\
    (forall s, get "shop" (query req) = Some (QStr s) ->
               key = s /\ render (get "shop" (query req)) = s) /\
    (exists t, database w = Ok t /\ t !! key = Some r) /\
    payload_built (body req) input /\
    f = FetchRequest
          ("https://" +:+ render (get "shop" (query req))
                      +:+ "/admin/api/2025-07/graphql.json")
          (Store.access_token r)
          (JObj [("query",
                  JStr
"#graphql
      mutation draftOrderCreate($input: DraftOrderInput!) {
        draftOrderCreate(input: $input) {
          draftOrder { id invoiceUrl name }
          userErrors { field message }
        }
      }");
                 ("variables", JObj [("input", input)])]%string) /\
    fst (Gated.proxy_cod rt SHOPIFY_API_SECRET w req)
    = [SelectToken (Some key); Fetch f].
Proof.
  intros Hin.
  assert (Hreach : exists key r input,
             reaches_downstream rt SHOPIFY_API_SECRET w req key r input).
  { revert Hin. unfold Gated.proxy_cod, pool_query_select, reaches_downstream.
    destruct (verifyProxyHmac rt (query req) SHOPIFY_API_SECRET) as [[|]|e];
      io_step; cbn [answer fst In]; try (simpl; tauto).
    destruct (database w) as [t|e]; cbn [bind]; [|simpl; intuition discriminate].
    destruct (Store.bind_select t _) as [[|tok rows]|e] eqn:Es;
      try (simpl; intuition discriminate).
    apply select_rows in Es as (key & r & Hkey & Hrow & -> & ->).
    destruct (Gated.destructure (body req)) as [fields|e];
      [|simpl; intuition discriminate].
    destruct (Gated.draftInput fields) as [input|e] eqn:Ei;
      [|simpl; intuition discriminate].
    intros _. exists key, r, input. cbn [bind]. eauto 10. }
  destruct Hreach as (key & r & input & Hreach).
  exists key, r, input.
  pose proof Hreach as (Hok & Hrow & Hkey & Hinput).
  split; [exact Hok|]. split; [exact Hkey|]. split.
  { intros s Hs. rewrite Hs in Hkey |- *. cbn in Hkey. injection Hkey as <-. auto. }
  split; [exact Hrow|]. split.
  { destruct (Gated.destructure (body req)) as [fields|e] eqn:Ef; [|discriminate].
    cbn [bind] in Hinput. eapply draftInput_built; eauto. }
  rewrite (gated_run _ _ _ _ _ Hreach) in Hin |- *. cbn [fst] in *.
  destruct Hin as [Hin | [Hin | []]]; [discriminate|].
  injection Hin as <-. split; reflexivity.
Qed.

End GatedExtras.

Lemma demo_reaches (w : world) :
  database w = Ok Demo.installed ->
  reaches_downstream Demo.node Demo.secret w Demo.signed_request
    "demo.example" Sample.stored Sample.order_input.
Proof.
  intros Hdb. split; [vm_compute; reflexivity|].
  split; [exists Demo.installed; split; [exact Hdb | reflexivity]|].
  split; [reflexivity | vm_compute; reflexivity].
Qed.


Lemma malformed_line_items_witness :
  Gated.proxy_cod Demo.node Demo.secret Demo.shop_up Sample.bad_items_request
  = ([SelectToken (Some "demo.example"%string)], error_response 500 "Server error").
Proof.
  apply (malformed_line_items Demo.node Demo.secret Demo.shop_up Demo.installed
           Sample.bad_items_request "demo.example" Sample.stored (JStr "two of each")).
  - vm_compute. reflexivity.
  - reflexivity.
  - reflexivity.
  - reflexivity.
  - reflexivity.
  - discriminate.
Defined.

Lemma gated_call_uses_stored_token_witness :
  payload_built (Some Demo.order_body) Sample.order_input /\
  fst (Gated.proxy_cod Demo.node Demo.secret Demo.shop_up Demo.signed_request)
  = [SelectToken (Some "demo.example"%string);
     Fetch (FetchRequest "https://demo.example/admin/api/2025-07/graphql.json"
              "shpat_1"
              (JObj [("query", JStr Gated.gql);
                     ("variables", JObj [("input", Sample.order_input)])]%string))].
Proof.
  destruct (gated_call_uses_stored_token Demo.node Demo.secret Demo.shop_up
              Demo.signed_request
              (Gated.graphql_request (Some (QStr "demo.example")) "shpat_1"
                 Sample.order_input))
    as (key & r & input & _ & Hkey & _ & _ & Hbuilt & Hf & Htrace).
  { rewrite (gated_run Demo.node Demo.secret _ _ _ _ _ (demo_reaches Demo.shop_up eq_refl)).
    right. left. reflexivity. }
  injection Hf as _ Hinput. subst input.
  split; [exact Hbuilt|]. rewrite Htrace.
  vm_compute in Hkey. injection Hkey as <-. reflexivity.
Defined.

(* ===================================================================== *)
(** ** Beyond the claims: the relay of [server.js] *)
(* ===================================================================== *)

Section ServerExtras.

Lemma truthy_query v : truthy (json_of_qval <$> v) = Text.query_truthy v.
Proof. destruct v as [[s|l]|]; reflexivity. Qed.

Lemma toString_qval v : toString (json_of_qval v) = Text.qval_toString v.
Proof.
  destruct v as [s|l]; [reflexivity|]. simpl. unfold Array_join. f_equal.
  induction l as [|a l IH]; simpl; [reflexivity | now rewrite IH].
Qed.

Lemma server_run w req shop r :
  server_reaches w req shop r ->
  Server.proxy_cod w req
  = ([CreateTable; SelectToken (Some shop);
      Fetch (Server.rest_request shop (Store.access_token r))],
     match downstream w (Server.rest_request shop (Store.access_token r)) with
     | Rejected e => Server.failure e
     | Responded code (Throw e) => Server.failure e
     | Responded code (Ok data) =>
         if Server.ok_status code then Server.relayed 200 true data
         else Server.relayed code false data
     end).
Proof.
  intros (Hurl & Hshop & Hne & t & Hdb & Hrow).
  unfold Server.proxy_cod, Server.handler, Server.ensureTablesSafe.
  rewrite Hurl, Hshop. io_step.
  apply String.eqb_neq in Hne. rewrite Hne.
  rewrite (pool_query_reachable w t _ Hdb), (select_known t shop r Hrow).
  io_step.
  destruct (downstream w _) as [e|code [data|e]]; cbn [bind]; try reflexivity.
  destruct (Server.ok_status code); reflexivity.
Qed.

(** X10. A request that names no shop, neither in the query nor in the
    body, is answered 400 [{ok:false, error:"Missing shop"}] before the
    store is looked up or the downstream API called. *)
Theorem server_missing_shop (w : world) (req : request) (v : value) :
  Text.query_truthy (get "shop" (query req)) = false ->
  prop (body req) "shop" = Ok v -> truthy v = false ->
  Server.proxy_cod w req
  = ((if DATABASE_URL_set w then [CreateTable] else nil),
     error_response 400 "Missing shop").
Proof.
  intros Hq Hb Hv.
  unfold Server.proxy_cod, Server.handler, Server.ensureTablesSafe, Server.resolve_shop.
  rewrite truthy_query, Hq, Hb. cbn [bind]. unfold or_else. rewrite Hv.
  destruct (DATABASE_URL_set w); reflexivity.
Qed.


(** X12. A downstream answer outside the 2xx range is relayed with its
    own status and the body [{ok:false, data}], the downstream body
    unchanged. *)
Theorem server_relays_downstream_status (w : world) (req : request) (shop : string)
    (r : Store.row) (code : Z) (data : json) :
  server_reaches w req shop r ->
  downstream w (Server.rest_request shop (Store.access_token r))
  = Responded code (Ok data) ->
  ~ (200 <= code <= 299) ->
  snd (Server.proxy_cod w req)
  = Response code (JObj [("ok", JBool false); ("data", data)]%string).
Proof.
  intros Hreach Hdown Hcode. rewrite (server_run _ _ _ _ Hreach), Hdown.
  cbn [snd]. unfold Server.ok_status.
  destruct (Z.leb_spec 200 code), (Z.leb_spec code 299); simpl; try reflexivity.
  exfalso. apply Hcode. lia.
Qed.


(** X14. Whenever the relay of [server.js] calls downstream, a database
    is configured, the request names a shop that has a row in the store,
    and the one call is a POST of the fixed draft order to the draft orders
    of that shop carrying the credential of that row; the trace is the
    create-table statement, the one lookup and that one call. *)
Theorem server_call_uses_stored_token (w : world) (req : request) (f : fetch_request) :
  In (Fetch f) (fst (Server.proxy_cod w req)) ->
  exists shop r,
    server_reaches w req shop r /\
    f = FetchRequest
          ("https://" +:+ shop +:+ "/admin/api/2024-04/draft_orders.json")
          (Store.access_token r)
          (JObj [("draft_order",
                 JObj [("line_items",
                        JArr [JObj [("title", JStr "Cash on Delivery");
                                    ("quantity", JNum 1);
                                    ("price", JStr "0.00")]]);
                       ("note", JStr "COD order");
                       ("tags", JArr [JStr "COD"; JStr "COD-App"])])]%string) /\
    fst (Server.proxy_cod w req) = [CreateTable; SelectToken (Some shop); Fetch f].
Proof.
  intros Hin.
  assert (Hreach : exists shop r, server_reaches w req shop r).
  { revert Hin.
    unfold Server.proxy_cod, Server.handler, Server.ensureTablesSafe,
      pool_query_select, server_reaches.
    destruct (DATABASE_URL_set w); destruct (Server.resolve_shop req) as [shop|e];
      io_step; cbn [fst In]; try (simpl; intuition discriminate).
    - destruct (String.eqb_spec shop ""); [simpl; intuition discriminate|].
      io_step.
      destruct (database w) as [t|e]; cbn [bind]; [|simpl; intuition discriminate].
      destruct (Store.bind_select t _) as [[|tok rows]|e] eqn:Es;
        try (simpl; intuition discriminate).
      apply select_rows in Es as (key & r & [= <-] & Hrow & -> & ->).
      intros _. exists shop, r. eauto 10.
    - destruct (String.eqb shop ""); simpl; intuition discriminate. }
  destruct Hreach as (shop & r & Hreach). exists shop, r.
  split; [exact Hreach|].
  rewrite (server_run _ _ _ _ Hreach) in Hin |- *. cbn [fst] in *.
  destruct Hin as [Hin | [Hin | [Hin | []]]]; try discriminate.
  injection Hin as <-. split; reflexivity.
Qed.

(** X15. A non-empty [shop] in the query string decides the tenant: the
    body is then not read, and two requests with that query get the same
    answer whatever their bodies are. *)
Theorem server_query_shop_wins (w : world) (q : obj qval) (b b' : value) :
  Text.query_truthy (get "shop" q) = true ->
  Server.resolve_shop (Request q b)
  = Ok (match get "shop" q with Some v => Text.qval_toString v | None => EmptyString end) /\
  Server.proxy_cod w (Request q b) = Server.proxy_cod w (Request q b').
Proof.
  intros Hq.
  assert (Hres : forall x, Server.resolve_shop (Request q x)
    = Ok (match get "shop" q with Some v => Text.qval_toString v | None => EmptyString end)).
  { intros x. unfold Server.resolve_shop. cbn [query].
    rewrite truthy_query, Hq.
    destruct (get "shop" q) as [v|]; [|discriminate].
    cbn [fmap option_fmap option_map Gated.String_of]. now rewrite toString_qval. }
  split; [apply Hres|].
  unfold Server.proxy_cod, Server.handler. now rewrite !Hres.
Qed.

End ServerExtras.

Lemma demo_server_reaches (w : world) :
  DATABASE_URL_set w = true -> database w = Ok Demo.installed ->
  server_reaches w Demo.unsigned_request "demo.example" Sample.stored.
Proof.
  intros Hurl Hdb. split; [exact Hurl|]. split; [reflexivity|].
  split; [discriminate|]. exists Demo.installed. split; [exact Hdb | reflexivity].
Qed.

Lemma server_missing_shop_witness :
  Server.proxy_cod Demo.shop_up Sample.anonymous_request
  = ([CreateTable], error_response 400 "Missing shop").
Proof.
  apply (server_missing_shop Demo.shop_up Sample.anonymous_request None);
    reflexivity.
Defined.


Lemma server_relays_downstream_status_witness :
  snd (Server.proxy_cod Sample.unprocessable Demo.unsigned_request)
  = Response 422
      (JObj [("ok", JBool false); ("data", JObj [("errors", JStr "invalid")])]%string).
Proof.
  apply (server_relays_downstream_status Sample.unprocessable Demo.unsigned_request
           "demo.example" Sample.stored 422).
  - apply demo_server_reaches; reflexivity.
  - reflexivity.
  - lia.
Defined.


Lemma server_call_uses_stored_token_witness :
  fst (Server.proxy_cod Demo.shop_up Demo.unsigned_request)
  = [CreateTable; SelectToken (Some "demo.example"%string);
     Fetch (FetchRequest "https://demo.example/admin/api/2024-04/draft_orders.json"
              "shpat_1"
              (JObj [("draft_order",
                 JObj [("line_items",
                        JArr [JObj [("title", JStr "Cash on Delivery");
                                    ("quantity", JNum 1);
                                    ("price", JStr "0.00")]]);
                       ("note", JStr "COD order");
                       ("tags", JArr [JStr "COD"; JStr "COD-App"])])]%string))].
Proof.
  destruct (server_call_uses_stored_token Demo.shop_up Demo.unsigned_request
              (Server.rest_request "demo.example" "shpat_1"))
    as (shop & r & (_ & Hshop & _ & t & Hdb & Hrow) & Hf & Htrace).
  { rewrite (server_run _ _ _ _ (demo_server_reaches Demo.shop_up eq_refl eq_refl)).
    right. right. left. reflexivity. }
  rewrite Htrace. injection Hshop as <-. reflexivity.
Defined.

Lemma server_query_shop_wins_witness :
  Server.resolve_shop (Sample.query_request (Some Demo.unsigned_body))
  = Ok "demo.example"%string /\
  Server.proxy_cod Demo.shop_up (Sample.query_request (Some Demo.unsigned_body))
  = Server.proxy_cod Demo.shop_up (Sample.query_request None).
Proof.
  apply (server_query_shop_wins Demo.shop_up [("shop", QStr "demo.example")]%string
           (Some Demo.unsigned_body) None).
  reflexivity.
Defined.

(* ===================================================================== *)
(** ** Beyond the claims: host names and scopes *)
(* ===================================================================== *)

Section TextFacts.

Import Text.

Lemma strip_protocol_https h : strip_protocol ("https://" +:+ h) = h.
Proof. reflexivity. Qed.

Lemma strip_protocol_http h : strip_protocol ("http://" +:+ h) = h.
Proof. reflexivity. Qed.

Lemma or_default_set d s : s <> EmptyString -> or_default d (Some s) = s.
Proof. intros H. unfold or_default. apply String.eqb_neq in H. now rewrite H. Qed.

Lemma is_set_Some s : s <> EmptyString -> is_set (Some s) = true.
Proof. intros H. unfold is_set. apply String.eqb_neq in H. now rewrite H. Qed.

Lemma split_on_cons c s : exists h t, split_on c s = h :: t.
Proof.
  induction s as [|a r (h & t & IH)]; simpl; [eauto|].
  destruct (Ascii.eqb a c); [eauto|]. rewrite IH. eauto.
Qed.

Lemma concat_cons_char sep a h t :
  String.concat sep (String a h :: t) = String a (String.concat sep (h :: t)).
Proof. destruct t; reflexivity. Qed.

Lemma join_split s : Array_join "," (split_on "," s) = s.
Proof.
  unfold Array_join. induction s as [|a r IH]; [reflexivity|].
  cbn [split_on]. destruct (split_on_cons "," r) as (h & t & E).
  rewrite E in IH |- *.
  destruct (Ascii.eqb_spec a ","%char) as [->|Hne].
  - change (String.concat "," (EmptyString :: h :: t))
      with ("," +:+ String.concat "," (h :: t)).
    now rewrite IH.
  - rewrite concat_cons_char. now rewrite IH.
Qed.

End TextFacts.

Section HostClaims.

Import Text OAuth.

Lemma host_of_forwarded (c : config) (headers : obj string) (h : string) :
  get "x-forwarded-host" headers = Some h -> h <> EmptyString ->
  or_default "https" (get "x-forwarded-proto" headers) = "https"%string \/
  or_default "https" (get "x-forwarded-proto" headers) = "http"%string ->
  Forwarded.getHostFromReq c headers = h.
Proof.
  intros Hh Hne Hproto. unfold Forwarded.getHostFromReq.
  rewrite Hh, (is_set_Some h Hne), (or_default_set _ h Hne).
  destruct Hproto as [-> | ->]; reflexivity.
Qed.

(** X16. A forwarded host decides the host name handed to the SDK: with a
    non-empty [x-forwarded-host] and a forwarded protocol that is absent,
    empty, [http] or [https], [getHostFromReq] returns that header as it
    is, whatever [APP_URL] and [VERCEL_URL] say. *)
Theorem forwarded_host_decides (c : config) (headers : obj string) (h : string) :
  get "x-forwarded-host" headers = Some h -> h <> EmptyString ->
  or_default "https" (get "x-forwarded-proto" headers) = "https"%string \/
  or_default "https" (get "x-forwarded-proto" headers) = "http"%string ->
  Forwarded.getHostFromReq c headers = h.
Proof. exact (host_of_forwarded c headers h). Qed.

(** X17. Without a forwarded host the host name comes from the
    environment: [APP_URL] with its [http://] or [https://] removed, and
    with no [APP_URL] the [VERCEL_URL] as it is. *)
Theorem host_from_environment (c : config) (headers : obj string) :
  is_set (get "x-forwarded-host" headers) = false ->
  (forall h, APP_URL c = Some ("https://" +:+ h) \/ APP_URL c = Some ("http://" +:+ h) ->
             Forwarded.getHostFromReq c headers = h) /\
  (forall v, is_set (APP_URL c) = false -> VERCEL_URL c = Some v -> v <> EmptyString ->
             Forwarded.getHostFromReq c headers = v).
Proof.
  intros Hx. unfold Forwarded.getHostFromReq. rewrite Hx. split.
  - intros h [-> | ->]; reflexivity.
  - intros v Ha -> Hv. rewrite Ha, (is_set_Some v Hv), (or_default_set _ v Hv).
    reflexivity.
Qed.

(** X18. [getShopify] fails exactly when the API key or the API secret is
    unset or empty; otherwise the scopes it configures, joined with commas,
    are the [SCOPES] variable (or the default list) character for
    character. *)
Theorem configured_scopes (c : config) :
  (is_set (SHOPIFY_API_KEY c) && is_set (SHOPIFY_API_SECRET c) = false ->
   getShopify c = Throw (Exn "Error" "Missing SHOPIFY creds")) /\
  (forall cfg, getShopify c = Ok cfg ->
     is_set (SHOPIFY_API_KEY c) = true /\ is_set (SHOPIFY_API_SECRET c) = true /\
     Array_join "," (scopes cfg) = or_default default_scopes (SCOPES c)).
Proof.
  unfold getShopify. split.
  - now intros ->.
  - intros cfg.
    destruct (is_set (SHOPIFY_API_KEY c)), (is_set (SHOPIFY_API_SECRET c));
      try discriminate.
    intros [= <-]. cbn [scopes]. now rewrite join_split.
Qed.

End HostClaims.

Lemma forwarded_host_decides_witness :
  Forwarded.getHostFromReq Sample.creds Sample.forwarded = "cod.example"%string.
Proof.
  apply (forwarded_host_decides Sample.creds Sample.forwarded "cod.example").
  - reflexivity.
  - discriminate.
  - left. reflexivity.
Defined.

Lemma host_from_environment_witness :
  Forwarded.getHostFromReq Sample.creds nil = "app.example"%string.
Proof.
  destruct (host_from_environment Sample.creds nil eq_refl) as [Happ _].
  apply Happ. left. reflexivity.
Defined.

(* ===================================================================== *)
(** ** Beyond the claims: installation *)
(* ===================================================================== *)

Section InstallClaims.

Import Text OAuth.

Lemma trim_empty : trim EmptyString = EmptyString.
Proof. reflexivity. Qed.

(** X19. [GET /auth] without a shop, or with an empty one, is answered 400
    [Missing shop] in all three variants, and the SDK is not called. *)
Theorem auth_missing_shop (c : config) (p : platform) (query : obj qval)
    (headers : obj string) :
  query_truthy (get "shop" query) = false ->
  auth c p query = (nil, Send 400 "Missing shop") /\
  auth_v1 c p query = (nil, Ok (Send 400 "Missing shop")) /\
  Forwarded.auth c p query headers = (nil, Send 400 "Missing shop").
Proof.
  intros Hq. unfold auth, auth_v1, Forwarded.auth.
  destruct (get "shop" query) as [v|]; [rewrite Hq|]; repeat split; reflexivity.
Qed.

(** X20. When the SDK fails to start the authorization, [server.js]
    answers 500 with the text of the exception appended to
    [Auth start error: ], while the handler of the HMAC-checking variant has
    no [catch]: the exception leaves it and no reply is sent. *)
Theorem auth_sdk_failure (c : config) (p : platform) (query : obj qval)
    (v : qval) (e : exn) :
  get "shop" query = Some v -> query_truthy (Some v) = true ->
  (forall cfg, getShopify c = Ok cfg ->
     oauth_begin p cfg (qval_toString v) = Throw e ->
     snd (auth c p query) = Send 500 ("Auth start error: " +:+ message e)) /\
  (oauth_begin p (shopify_v1 c) (qval_toString v) = Throw e ->
   snd (auth_v1 c p query) = Throw e).
Proof.
  intros Hv Ht. unfold auth, auth_v1. rewrite Hv, Ht. split.
  - intros cfg -> Hb. cbn [snd]. now rewrite Hb.
  - intros Hb. cbn [snd]. now rewrite Hb.
Qed.

(** X21. In the per-request variant the SDK is configured with the
    forwarded host: for a non-empty shop and a forwarded host under [http]
    or [https], [GET /auth] calls the SDK once, with that host as
    [hostName] and with the trimmed shop. *)
Theorem auth_uses_forwarded_host (c : config) (p : platform) (query : obj qval)
    (headers : obj string) (v : qval) (h : string) :
  get "shop" query = Some v -> query_truthy (Some v) = true ->
  trim (qval_toString v) <> EmptyString ->
  is_set (SHOPIFY_API_KEY c) && is_set (SHOPIFY_API_SECRET c) = true ->
  get "x-forwarded-host" headers = Some h -> h <> EmptyString ->
  or_default "https" (get "x-forwarded-proto" headers) = "https"%string \/
  or_default "https" (get "x-forwarded-proto" headers) = "http"%string ->
  exists cfg,
    hostName cfg = h /\
    fst (Forwarded.auth c p query headers) = [SdkBegin cfg (trim (qval_toString v))].
Proof.
  intros Hv Ht Hshop Hcreds Hh Hne Hproto.
  unfold Forwarded.auth. rewrite Hv, Ht.
  apply String.eqb_neq in Hshop. rewrite Hshop.
  rewrite (host_of_forwarded c headers h Hh Hne Hproto).
  unfold Forwarded.makeShopify. rewrite Hcreds.
  eexists. split; [|reflexivity]. reflexivity.
Qed.

Lemma query_upsert_stores p s t tok :
  accessToken s = Some tok ->
  Store.has_nul (shop s) = false -> Store.has_nul tok = false ->
  Store.rejected (scope s) = false ->
  exists t' r, query_upsert p s (Ok t) = Ok t' /\
               t' !! shop s = Some r /\ Store.access_token r = tok.
Proof.
  intros Htok Hs Ht Hsc. unfold query_upsert, Store.bind_upsert. cbn [bind].
  rewrite Htok. cbn [Store.rejected]. rewrite Hs, Ht, Hsc. cbn [orb].
  destruct (t !! shop s) as [r|] eqn:E.
  - rewrite (upsert_present _ _ _ _ _ _ E). eexists _, _. split; [reflexivity|].
    rewrite lookup_insert_eq. auto.
  - rewrite (upsert_fresh _ _ _ _ _ E). eexists _, _. split; [reflexivity|].
    rewrite lookup_insert_eq. auto.
Qed.

(** X22. Installing makes the relay work: after a callback of [server.js]
    whose code exchange yields a session with a credential (and no U+0000
    in its shop, credential or scope, which the database would refuse),
    the merchant is redirected to the shop's admin, and a following
    [POST /proxy/cod] that names that shop looks it up and makes one
    downstream call: a POST of the fixed draft order to the draft orders
    of that shop carrying exactly that credential. *)
Theorem install_then_relay (c : config) (p : platform) (w : world) (t : Store.table)
    (query : obj qval) (cfg : sdk_config) (s : session) (tok : string)
    (req : request) :
  getShopify c = Ok cfg ->
  oauth_callback p cfg query = Ok s ->
  accessToken s = Some tok ->
  Store.has_nul (shop s) = false -> Store.has_nul tok = false ->
  Store.rejected (scope s) = false ->
  DATABASE_URL_set w = true -> database w = Ok t ->
  Server.resolve_shop req = Ok (shop s) -> shop s <> EmptyString ->
  exists db,
    callback c p w query
    = ([EnsureTables; SdkCallback cfg; Upsert (shop s) (Some tok) (scope s)],
       Redirect ("https://" +:+ shop s +:+ "/admin/apps"), db) /\
    fst (Server.proxy_cod (after w db) req)
    = [CreateTable; SelectToken (Some (shop s));
       Fetch (FetchRequest
                ("https://" +:+ shop s +:+ "/admin/api/2024-04/draft_orders.json")
                tok
                (JObj [("draft_order",
                 JObj [("line_items",
                        JArr [JObj [("title", JStr "Cash on Delivery");
                                    ("quantity", JNum 1);
                                    ("price", JStr "0.00")]]);
                       ("note", JStr "COD order");
                       ("tags", JArr [JStr "COD"; JStr "COD-App"])])]%string))].
Proof.
  intros Hcfg Hcb Htok Hs Ht Hsc Hurl Hdb Hshop Hne.
  destruct (query_upsert_stores p s t tok Htok Hs Ht Hsc) as (t' & r & Hup & Hr & Hrtok).
  exists (Ok t'). split.
  - unfold callback. rewrite Hcfg, Hcb, Hurl, Hdb, Hup, Htok. reflexivity.
  - rewrite (server_run (after w (Ok t')) req (shop s) r).
    + cbn [fst after downstream]. now rewrite Hrtok.
    + unfold server_reaches, after. cbn. eauto 10.
Qed.

(** X23. Without a configured database the callback of [server.js] still
    redirects the merchant as after a successful installation, although
    nothing is written: there is no upsert and the store is as before. *)
Theorem callback_without_database (c : config) (p : platform) (w : world)
    (query : obj qval) (cfg : sdk_config) (s : session) :
  getShopify c = Ok cfg ->
  oauth_callback p cfg query = Ok s ->
  DATABASE_URL_set w = false ->
  callback c p w query
  = ([SdkCallback cfg], Redirect ("https://" +:+ shop s +:+ "/admin/apps"), database w).
Proof.
  intros Hcfg Hcb Hurl. unfold callback. now rewrite Hcfg, Hcb, Hurl.
Qed.

(** X24. The callback of the HMAC-checking variant has two outcomes only:
    the generic reply 500 [Auth error] with the store untouched (so no text
    of the SDK or of the database reaches the caller), or a redirect to the
    shop's admin after the upsert of the session succeeded. *)
Theorem callback_v1_outcomes (c : config) (p : platform) (db : result Store.table)
    (query : obj qval) :
  let '(_, reply, db') := callback_v1 c p db query in
  (reply = Send 500 "Auth error" /\ db' = db) \/
  (exists s t t',
      oauth_callback p (shopify_v1 c) query = Ok s /\
      db = Ok t /\ db' = Ok t' /\
      Store.upsert (now p) (Some (shop s)) (accessToken s) (scope s) t = Store.Done t' /\
      reply = Redirect ("https://" +:+ shop s +:+ "/admin/apps")).
Proof.
  unfold callback_v1.
  destruct (oauth_callback p (shopify_v1 c) query) as [s|e]; [|now left].
  unfold query_upsert.
  destruct db as [t|e]; cbn [bind]; [|now left].
  destruct (Store.bind_upsert _ _ _ _ t) as [t'|err] eqn:E; [|now left].
  apply bind_upsert_Done in E as (_ & _ & _ & E).
  right. exists s, t, t'. auto.
Qed.

(** X25. A session without an access token installs nothing: the upsert
    is refused (the credential column is not null), the callback answers
    500 and the store keeps what it had for that shop. *)
Theorem callback_without_token (c : config) (p : platform) (t : Store.table)
    (query : obj qval) (s : session) :
  oauth_callback p (shopify_v1 c) query = Ok s ->
  accessToken s = None ->
  callback_v1 c p (Ok t) query
  = ([SdkCallback (shopify_v1 c); Upsert (shop s) None (scope s)],
     Send 500 "Auth error", Ok t).
Proof.
  intros Hcb Htok. unfold callback_v1, query_upsert. rewrite Hcb, Htok.
  cbn [bind]. unfold Store.bind_upsert.
  destruct (_ || _); reflexivity.
Qed.

End InstallClaims.

Lemma auth_missing_shop_witness :
  OAuth.auth Sample.creds Sample.sdk nil = (nil, OAuth.Send 400 "Missing shop") /\
  OAuth.auth_v1 Sample.creds Sample.sdk nil = (nil, Ok (OAuth.Send 400 "Missing shop")) /\
  Forwarded.auth Sample.creds Sample.sdk nil Sample.forwarded
  = (nil, OAuth.Send 400 "Missing shop").
Proof.
  apply (auth_missing_shop Sample.creds Sample.sdk nil Sample.forwarded).
  reflexivity.
Defined.

Lemma auth_sdk_failure_witness :
  snd (OAuth.auth Sample.creds Sample.broken_sdk Sample.install_query)
  = OAuth.Send 500 "Auth start error: network down" /\
  snd (OAuth.auth_v1 Sample.creds Sample.broken_sdk Sample.install_query)
  = Throw (Exn "Error" "network down").
Proof.
  destruct (auth_sdk_failure Sample.creds Sample.broken_sdk Sample.install_query
              (QStr "demo.example") (Exn "Error" "network down") eq_refl eq_refl)
    as [Hcaught Hescapes].
  split.
  - apply (Hcaught Sample.configured); reflexivity.
  - apply Hescapes. reflexivity.
Defined.

Lemma auth_uses_forwarded_host_witness :
  exists cfg,
    OAuth.hostName cfg = "cod.example"%string /\
    fst (Forwarded.auth Sample.creds Sample.sdk Sample.install_query Sample.forwarded)
    = [OAuth.SdkBegin cfg "demo.example"].
Proof.
  assert (Hshop : Text.trim "demo.example" <> EmptyString) by discriminate.
  assert (Hhost : "cod.example"%string <> EmptyString) by discriminate.
  exact (auth_uses_forwarded_host Sample.creds Sample.sdk Sample.install_query
           Sample.forwarded (QStr "demo.example") "cod.example"
           eq_refl eq_refl Hshop eq_refl eq_refl Hhost (or_introl eq_refl)).
Defined.

Lemma install_then_relay_witness :
  exists db,
    OAuth.callback Sample.creds Sample.sdk Sample.empty_slate Sample.install_query
    = ([OAuth.EnsureTables; OAuth.SdkCallback Sample.configured;
        OAuth.Upsert "demo.example" (Some "shpat_9"%string)
          (Some "write_draft_orders"%string)],
       OAuth.Redirect "https://demo.example/admin/apps", db) /\
    fst (Server.proxy_cod (OAuth.after Sample.empty_slate db) Demo.unsigned_request)
    = [CreateTable; SelectToken (Some "demo.example"%string);
       Fetch (FetchRequest "https://demo.example/admin/api/2024-04/draft_orders.json"
                "shpat_9"
                (JObj [("draft_order",
                 JObj [("line_items",
                        JArr [JObj [("title", JStr "Cash on Delivery");
                                    ("quantity", JNum 1);
                                    ("price", JStr "0.00")]]);
                       ("note", JStr "COD order");
                       ("tags", JArr [JStr "COD"; JStr "COD-App"])])]%string))].
Proof.
  assert (Hne : OAuth.shop Sample.installing <> EmptyString) by discriminate.
  exact (install_then_relay Sample.creds Sample.sdk Sample.empty_slate ∅
           Sample.install_query Sample.configured Sample.installing "shpat_9"
           Demo.unsigned_request eq_refl eq_refl eq_refl eq_refl eq_refl eq_refl
           eq_refl eq_refl eq_refl Hne).
Defined.

Lemma callback_without_database_witness :
  OAuth.callback Sample.creds Sample.sdk Sample.no_database Sample.install_query
  = ([OAuth.SdkCallback Sample.configured],
     OAuth.Redirect "https://demo.example/admin/apps", Throw Sample.refused).
Proof.
  apply (callback_without_database Sample.creds Sample.sdk Sample.no_database
           Sample.install_query Sample.configured Sample.installing);
    reflexivity.
Defined.

Lemma callback_without_token_witness :
  OAuth.callback_v1 Sample.creds Sample.tokenless_sdk (Ok Demo.installed)
    Sample.install_query
  = ([OAuth.SdkCallback (OAuth.shopify_v1 Sample.creds);
      OAuth.Upsert "demo.example" None None],
     OAuth.Send 500 "Auth error", Ok Demo.installed).
Proof.
  apply (callback_without_token Sample.creds Sample.tokenless_sdk Demo.installed
           Sample.install_query (OAuth.Session "demo.example" None None));
    reflexivity.
Defined.

(* ===================================================================== *)
(** ** Beyond the claims: the other relays *)
(* ===================================================================== *)

Section VariantClaims.

Import Text.

(** X26. The relay that trims the shop behaves as the relay of
    [server.js] on every request whose shop has no white space around it,
    and answers 400 [Missing shop], without a lookup, when the shop is
    white space only. *)
Theorem trimmed_relay (w : world) (req : request) (shop : string) :
  Server.resolve_shop req = Ok shop ->
  (trim shop = shop -> Forwarded.proxy_cod w req = Server.proxy_cod w req) /\
  (strip_ws (Bytes.of_string shop) = nil ->
   Forwarded.proxy_cod w req
   = ((if DATABASE_URL_set w then [CreateTable] else nil),
      error_response 400 "Missing shop")).
Proof.
  intros Hshop. split.
  - intros Htrim.
    unfold Forwarded.proxy_cod, Forwarded.handler, Forwarded.resolve_shop,
      Server.proxy_cod, Server.handler.
    rewrite Hshop. cbn [bind]. now rewrite Htrim.
  - intros Hblank.
    unfold Forwarded.proxy_cod, Forwarded.handler, Forwarded.resolve_shop,
      Server.ensureTablesSafe.
    rewrite Hshop. cbn [bind]. unfold trim. rewrite Hblank.
    destruct (DATABASE_URL_set w); reflexivity.
Qed.

(** X27. The relay that takes the shop from the body answers every
    downstream reply that parses with status 200 and the downstream body,
    whatever status the downstream API gave. *)
Theorem body_relay_hides_status (compound : json -> string) (w : world)
    (t : Store.table) (req : request) (v : value) (key : string) (r : Store.row)
    (code : Z) (data : json) :
  prop (body req) "shop" = Ok v ->
  database w = Ok t ->
  BodyShop.pg_value compound v = Some key -> t !! key = Some r ->
  downstream w
    (FetchRequest
       ("https://" +:+ Gated.String_of v +:+ "/admin/api/2024-04/draft_orders.json")
       (Store.access_token r) BodyShop.draftOrder)
  = Responded code (Ok data) ->
  snd (BodyShop.proxy_cod compound w req) = BodyShop.SendJson 200 data.
Proof.
  intros Hv Hdb Hkey Hrow Hdown.
  unfold BodyShop.proxy_cod, BodyShop.handler. rewrite Hv. io_step.
  rewrite (pool_query_reachable w t _ Hdb), Hkey, (select_known t key r Hrow).
  io_step. rewrite Hdown. reflexivity.
Qed.

(** X28. The same relay does not check that a shop was given: a body
    without a [shop] is looked up as NULL and answered 401
    [Shop not found], and a request without a body is answered 500 before
    any lookup. *)
Theorem body_relay_without_shop (compound : json -> string) (w : world)
    (t : Store.table) (req : request) :
  database w = Ok t ->
  (prop (body req) "shop" = Ok None ->
   BodyShop.proxy_cod compound w req
   = ([SelectToken None], BodyShop.SendText 401 "Shop not found")) /\
  (body req = None ->
   BodyShop.proxy_cod compound w req
   = (nil, BodyShop.SendText 500 "Error creating draft order")).
Proof.
  intros Hdb. split.
  - intros Hv. unfold BodyShop.proxy_cod, BodyShop.handler. rewrite Hv. io_step.
    now rewrite (pool_query_reachable w t _ Hdb).
  - intros Hb. unfold BodyShop.proxy_cod, BodyShop.handler. now rewrite Hb.
Qed.

End VariantClaims.

Lemma trimmed_relay_witness :
  Forwarded.proxy_cod Demo.shop_up Demo.unsigned_request
  = Server.proxy_cod Demo.shop_up Demo.unsigned_request.
Proof.
  destruct (trimmed_relay Demo.shop_up Demo.unsigned_request "demo.example" eq_refl)
    as [Hsame _].
  apply Hsame. reflexivity.
Defined.

Lemma body_relay_hides_status_witness :
  snd (BodyShop.proxy_cod Sample.compound Sample.unprocessable Sample.body_request)
  = BodyShop.SendJson 200 (JObj [("errors", JStr "invalid")]%string).
Proof.
  apply (body_relay_hides_status Sample.compound Sample.unprocessable Demo.installed
           Sample.body_request (Some (JStr "demo.example")) "demo.example"
           Sample.stored 422);
    reflexivity.
Defined.

Lemma body_relay_without_shop_witness :
  BodyShop.proxy_cod Sample.compound Demo.shop_up Sample.anonymous_request
  = ([SelectToken None], BodyShop.SendText 401 "Shop not found").
Proof.
  destruct (body_relay_without_shop Sample.compound Demo.shop_up Demo.installed
              Sample.anonymous_request eq_refl) as [Hnull _].
  apply Hnull. reflexivity.
Defined.

(* ===================================================================== *)
(** ** Beyond the claims: quantities *)
(* ===================================================================== *)

Section Quantities.

Lemma digits_numeral d acc :
  digits (Bytes.of_string (NilEmpty.string_of_uint d)) (Some acc)
  = Some (numeral_value d acc).
Proof.
  revert acc. induction d; intros acc; [reflexivity|..];
    cbn [NilEmpty.string_of_uint numeral_value];
    change (Bytes.of_string (String ?c ?s))
      with (Bytes.byte_of_ascii c :: Bytes.of_string s);
    cbn [digits]; cbn -[digits Bytes.of_string Z.mul Z.add numeral_value];
    rewrite IHd; reflexivity.
Qed.

Lemma numeral_value_acc d acc :
  numeral_value d (Z.pos acc) = Z.pos (Pos.of_uint_acc d acc).
Proof.
  revert acc. induction d; intros acc; [reflexivity|..];
    cbn [numeral_value Pos.of_uint_acc];
    rewrite <- IHd; f_equal; lia.
Qed.

Lemma numeral_value_0 d : numeral_value d 0 = Z.of_N (Pos.of_uint d).
Proof.
  induction d; [reflexivity|..]; cbn [numeral_value Pos.of_uint];
    try exact IHd; cbn [Z.mul Z.add Z.of_N]; apply numeral_value_acc.
Qed.

Lemma parse_numeral d :
  d <> Decimal.Nil ->
  strip_ws (Bytes.of_string (NilEmpty.string_of_uint d))
  = Bytes.of_string (NilEmpty.string_of_uint d) /\
  digits (Bytes.of_string (NilEmpty.string_of_uint d)) None
  = Some (Z.of_N (Pos.of_uint d)) /\
  exists b r, Bytes.of_string (NilEmpty.string_of_uint d) = b :: r /\ 48 <= b <= 57.
Proof.
  intros Hd. rewrite <- numeral_value_0, <- digits_numeral.
  destruct d; [contradiction|..];
    (split; [reflexivity|]; split; [reflexivity|];
     eexists _, _; split; [reflexivity|]; split; vm_compute; discriminate).
Qed.

Lemma round_double_exact n : 0 <= n < 2 ^ 53 -> round_double n = Finite n.
Proof.
  intros H. unfold round_double.
  assert (Z.log2 n - 52 <= 0) as Hk.
  { destruct (Z.eq_dec n 0) as [->|Hn]; [simpl; lia|].
    assert (Z.log2 n < 53) by (apply Z.log2_lt_pow2; lia). lia. }
  apply Z.leb_le in Hk. now rewrite Hk.
Qed.

Lemma parseInt_positive p :
  Z.pos p < 2 ^ 53 -> parseInt10 (string_of_Z (Z.pos p)) = Finite (Z.pos p).
Proof.
  intros Hp. unfold string_of_Z. cbn [Z.to_int NilZero.string_of_int].
  pose proof (DecimalPos.Unsigned.to_uint_nonnil p) as Hnn.
  pose proof (DecimalPos.Unsigned.of_to p) as Hof.
  unfold NilZero.string_of_uint.
  destruct (Pos.to_uint p) as [| | | | | | | | | |] eqn:E; [contradiction|..];
    rewrite <- E in *;
    destruct (parse_numeral (Pos.to_uint p) Hnn) as (Hws & Hdig & b & r & Hb & Hrange);
    unfold parseInt10; rewrite Hws;
    rewrite Hb in *;
    (assert (Hsign : match b :: r with
                     | 45 :: r0 => (true, r0)
                     | 43 :: r0 => (false, r0)
                     | _ => (false, b :: r)
                     end = (false, b :: r))
       by (destruct b as [|q|q]; try lia;
           do 8 (try destruct q as [q|q|]); try reflexivity; lia));
    rewrite Hsign, Hdig, Hof; cbn [Z.of_N]; apply round_double_exact; lia.
Qed.

End Quantities.

Section QuantityClaims.

Lemma parseInt_prints n :
  - 2 ^ 53 < n < 2 ^ 53 -> parseInt10 (string_of_Z n) = Finite n.
Proof.
  intros H. destruct n as [|p|p].
  - reflexivity.
  - apply parseInt_positive. lia.
  - pose proof (parseInt_positive p ltac:(lia)) as Hpos.
    pose proof (DecimalPos.Unsigned.to_uint_nonnil p) as Hnn.
    destruct (parse_numeral (Pos.to_uint p) Hnn) as (Hws & Hdig & _).
    rewrite DecimalPos.Unsigned.of_to in Hdig.
    unfold string_of_Z. cbn [Z.to_int NilZero.string_of_int].
    unfold parseInt10.
    change (Bytes.of_string (String "-" ?s)) with (45 :: Bytes.of_string s).
    assert (Hstr : NilZero.string_of_uint (Pos.to_uint p)
                   = NilEmpty.string_of_uint (Pos.to_uint p)).
    { unfold NilZero.string_of_uint. destruct (Pos.to_uint p); [contradiction|..];
        reflexivity. }
    rewrite Hstr.
    change (strip_ws (45 :: ?r)) with (45 :: r).
    cbv beta iota zeta. cbn [Z.of_N] in Hdig. rewrite Hdig.
    rewrite round_double_exact by lia. reflexivity.
Qed.

Lemma string_of_Z_nonempty n : string_of_Z n <> EmptyString.
Proof.
  unfold string_of_Z. destruct n as [|p|p]; cbn [Z.to_int NilZero.string_of_int];
    try discriminate.
  pose proof (DecimalPos.Unsigned.to_uint_nonnil p) as Hnn.
  unfold NilZero.string_of_uint. destruct (Pos.to_uint p); try contradiction; discriminate.
Qed.

Lemma prop_defined v k k' x : prop v k = Ok x -> exists y, prop v k' = Ok y.
Proof. destruct v as [[]|]; simpl; try discriminate; eauto. Qed.

Lemma line_item_quantity li q n :
  prop (Some li) "quantity" = Ok q -> truthy q = true ->
  parseInt10 (Gated.String_of q) = Finite n ->
  exists io, Gated.line_item li = Ok (JObj io) /\ get "quantity" io = Some (JNum n).
Proof.
  intros Hq Ht Hp. unfold Gated.line_item.
  destruct (prop_defined _ _ "variantId" _ Hq) as [v Hv].
  rewrite Hv, Hq. cbn [bind]. unfold or_else. rewrite Ht, Hp.
  eexists. split; [reflexivity|]. destruct v; reflexivity.
Qed.

(** X29. A quantity survives the detour through text: a line item whose
    quantity is a non-zero integer below 2^53 in size, or the decimal text
    of any such integer including zero, reaches the payload with exactly
    that integer as its quantity. *)
Theorem quantity_kept (li : json) (n : Z) :
  - 2 ^ 53 < n < 2 ^ 53 ->
  (prop (Some li) "quantity" = Ok (Some (JNum n)) -> n <> 0 ->
   exists io, Gated.line_item li = Ok (JObj io) /\ get "quantity" io = Some (JNum n)) /\
  (prop (Some li) "quantity" = Ok (Some (JStr (string_of_Z n))) ->
   exists io, Gated.line_item li = Ok (JObj io) /\ get "quantity" io = Some (JNum n)).
Proof.
  intros Hn. split.
  - intros Hq Hnz. apply (line_item_quantity li _ n Hq).
    + simpl. now apply negb_true_iff, Z.eqb_neq.
    + cbn [Gated.String_of toString]. unfold Number_toString.
      rewrite round_double_exact by lia.
      assert ((Z.abs n <? 2 ^ 53) = true) as -> by (apply Z.ltb_lt; lia).
      assert ((if n <? 0 then - Z.abs n else Z.abs n) = n) as ->
        by (destruct (Z.ltb_spec n 0); lia).
      now apply parseInt_prints.
  - intros Hq. apply (line_item_quantity li _ n Hq).
    + simpl. apply negb_true_iff, String.eqb_neq, string_of_Z_nonempty.
    + now apply parseInt_prints.
Qed.

End QuantityClaims.

Lemma quantity_kept_witness :
  exists io,
    Gated.line_item (JObj [("variantId", JStr "gid://variant/2");
                           ("quantity", JStr "3")]%string) = Ok (JObj io) /\
    get "quantity" io = Some (JNum 3).
Proof.
  assert (Hn : - 2 ^ 53 < 3 < 2 ^ 53) by (split; reflexivity).
  destruct (quantity_kept (JObj [("variantId", JStr "gid://variant/2");
                                 ("quantity", JStr "3")]%string) 3 Hn) as [_ Htext].
  apply Htext. reflexivity.
Defined.
